(** * KladosJobDO: the job lifecycle controller of the klados DO template

    A shallow embedding of [src/job-do.ts] (class [KladosJobDO]): the
    [job_state] table, [handleStart], [handleStatus], [fetch] and the
    [alarm] handler; of the callback of the template, [processJob] in
    [src/job.ts]; and of the worker's routes in [src/index.ts]; followed by
    the properties of the lifecycle.

    Modelling conventions.
    - The durable object owns one SQLite table whose only row ever written
      has [id = 1]; the table is an [option JobRow].  [sql.exec(..).one()]
      is the platform's cursor method: it yields the row when the query has
      exactly one, and throws when the table is empty.  The source tests its
      result for truthiness; those tests are kept as they are written.
    - The [request] and [config] columns hold [JSON.stringify] of the
      payloads and are read back with [JSON.parse]; the columns are modelled
      as the payloads themselves.
    - The durable object's own storage ([sql.exec], [storage.setAlarm]) does
      not fail otherwise, except for the primary-key conflict of a second
      INSERT.
    - The collaborators ([writeKladosLog], [processJob], the entity GET,
      [interpretThen], [updateLogWithHandoffs], [updateLogStatus],
      [failKlados]) are external: each either returns or throws.  One
      [alarm] invocation calls each of them at most once, so a [Behaviour]
      gives one outcome per collaborator, and the theorems quantify over it.
    - [processJob] receives the [sql] handle for its own checkpoint tables;
      it does not write [job_state]. *)

From stdpp Require Import base numbers strings list option gmap.

Open Scope string_scope.
Open Scope list_scope.
Open Scope Z_scope.

(** ** Data model *)

(** [type JobStatus = 'accepted' | 'processing' | 'done' | 'error'] *)
Inductive JobStatus := Accepted | Processing | Done | Failed.

Definition status_text (s : JobStatus) : string :=
  match s with
  | Accepted => "accepted"
  | Processing => "processing"
  | Done => "done"
  | Failed => "error"
  end.

(** [interface KladosJobConfig] *)
Record KladosJobConfig := {
  agentId : string;
  agentVersion : string;
  authToken : string;
}.

(** The part of [request.rhiza] the controller reads. *)
Record RhizaContext := {
  rhiza_id : string;
  path : option (list string);
  parent_logs : option (list string);
  batch : option string;
  scatter_total : option Z;
}.

(** The part of [KladosRequest] the controller reads. *)
Record KladosRequest := {
  job_id : string;
  api_base : string;
  network : string;
  rhiza : option RhizaContext;
  target_entity : option string;
  target_entities : option (list string);
  target_collection : string;
  job_collection : string;
}.

(** One row of [job_state], column by column ([id] is always 1). *)
Record JobRow := {
  request : KladosRequest;
  config : KladosJobConfig;
  log_id : string;
  log_file_id : option string;
  status : JobStatus;
  created_at : string;
  error : option string;
}.

(** The durable state of one object: the table and the single alarm slot,
    which holds the time most recently given to [setAlarm] (how the platform
    fires and clears it is outside the model). *)
Record DOState := {
  job_state : option JobRow;
  scheduled_alarm : option Z;
}.

Definition fresh : DOState := {| job_state := None; scheduled_alarm := None |}.

(** *** Values exchanged with the collaborators *)

Inductive LogLevel := Info | Success | ErrorLevel.

Record LogMessage := { level : LogLevel; text : string }.

Record KladosLogEntry := {
  entry_id : string;
  entry_klados_id : string;
  entry_rhiza_id : option string;
  entry_job_id : string;
  entry_started_at : string;
  entry_status : string;
  received_target_entity : option string;
  received_target_entities : option (list string);
  received_target_collection : string;
  received_from_logs : option (list string);
  received_batch : option string;
  received_scatter_total : option Z;
}.

Definition Output := string.

(** [interface ProcessResult] of [src/job.ts] *)
Record ProcessResult := {
  outputs : option (list Output);
  reschedule : option bool;
}.

(** A step's continuation directive and a handoff record are objects of the
    rhiza library; the controller only tests their presence and passes them on. *)
Record ThenSpec := { directive : string }.

Record HandoffRecord := { record_text : string }.

Record ApiError := { api_message : string }.

Record FlowStep := { then_ : option ThenSpec }.

(** What the GET of the rhiza entity resolves to: [{ data, error }], with
    [data.properties.flow] a record from step names to steps. *)
Record RhizaEntity := { flow : option (gmap string FlowStep) }.

Record GetResponse := {
  data : option RhizaEntity;
  get_error : option ApiError;
}.

Record HandoffResult := {
  handoffRecord : option HandoffRecord;
  action : string;
  target : option string;
  targetType : option string;
}.

(** A thrown JavaScript value: an [Error] with its message, or anything
    else, given by what [String(error)] renders. *)
Inductive Thrown :=
  | JsError (message : string)
  | JsOther (rendered : string).

(** [error instanceof Error ? error.message : String(error)] *)
Definition error_message (e : Thrown) : string :=
  match e with
  | JsError m => m
  | JsOther r => r
  end.

Inductive Outcome (A : Type) :=
  | Returns (a : A)
  | Throws (e : Thrown).
Arguments Returns {A} a.
Arguments Throws {A} e.

(** What the platform answers during one invocation. *)
Record Host := {
  generateId : string;
  toISOString : string;
  now : Z;
}.

(** The outcome of each collaborator during one [alarm] invocation. *)
Record Behaviour := {
  host : Host;
  writeKladosLog : Outcome string;
  processJob_logs : list LogMessage;
  processJob : Outcome ProcessResult;
  get_entity : Outcome GetResponse;
  interpretThen : Outcome HandoffResult;
  updateLogWithHandoffs : Outcome unit;
  updateLogStatus : Outcome unit;
  failKlados : Outcome unit;
}.

(** *** Observable effects, in the order they happen *)

(** Writes to the table, the alarm slot, and the calls to the collaborators.
    A call carries the arguments that vary from call to call; the others
    ([client], the agent and collection identifiers) are fixed by the row. *)
Inductive Event :=
  | SqlInsert (row : JobRow)
  | SqlUpdateStatus (s : JobStatus)
  | SqlUpdateLogFileId (f : string)
  | SqlUpdateError (msg : string)
  | SetAlarm (t : Z)
  | CallWriteKladosLog (entry : KladosLogEntry) (messages : list LogMessage)
  | CallProcessJob (req : KladosRequest)
  | CallGetEntity (id : string)
  | CallInterpretThen (spec : ThenSpec) (outs : list Output) (fromLogId : string)
  | CallUpdateLogWithHandoffs (logFileId : string) (records : list HandoffRecord)
  | CallUpdateLogStatus (logFileId : string) (st : string) (messages : list LogMessage)
  | CallFailKlados (logFileId : string) (batchContext : option string)
      (err : Thrown) (messages : list LogMessage).

(** *** HTTP responses *)

(** The JSON values that occur in the responses; a JSON body is one object,
    given by its fields in order. *)
Inductive Json :=
  | JNull
  | JBool (b : bool)
  | JStr (s : string).

Inductive Body :=
  | JsonBody (fields : list (string * Json))
  | TextBody (s : string).

Record Response := { http_status : Z; body : Body }.

(** [Response.json(v)] and [Response.json(v, { status })] *)
Definition Response_json (fields : list (string * Json)) (code : Z) : Response :=
  {| http_status := code; body := JsonBody fields |}.

Definition json_of_option (o : option string) : Json :=
  match o with
  | Some s => JStr s
  | None => JNull
  end.

(** ** The monad of one invocation: state, trace and exceptions *)

Record Run := {
  st : DOState;
  logger : list LogMessage;
  events : list Event;
}.

Definition start_run (s : DOState) : Run :=
  {| st := s; logger := []; events := [] |}.

Definition M (A : Type) : Type := Run → Outcome A * Run.

Definition ret {A} (a : A) : M A := λ r, (Returns a, r).

Definition bind {A B} (m : M A) (k : A → M B) : M B :=
  λ r, match m r with
       | (Returns a, r') => k a r'
       | (Throws e, r') => (Throws e, r')
       end.

Definition throw {A} (e : Thrown) : M A := λ r, (Throws e, r).

(** [try { body } catch (error) { handler }] *)
Definition try_catch {A} (body : M A) (handler : Thrown → M A) : M A :=
  λ r, match body r with
       | (Returns a, r') => (Returns a, r')
       | (Throws e, r') => handler e r'
       end.

Declare Scope do_scope.
Delimit Scope do_scope with do.
Notation "x <- c1 ;; c2" := (bind c1 (λ x, c2))
  (at level 100, c1 at next level, right associativity) : do_scope.
Notation "c1 ;; c2" := (bind c1 (λ _, c2))
  (at level 100, right associativity) : do_scope.
Open Scope do_scope.

Definition emit (e : Event) : M unit :=
  λ r, (Returns (),
        {| st := st r; logger := logger r; events := events r ++ [e] |}).

Definition update_state (f : DOState → DOState) : M unit :=
  λ r, (Returns (),
        {| st := f (st r); logger := logger r; events := events r |}).

(** [await collaborator(..)]: the call is observed, then returns or throws. *)
Definition call {A} (e : Event) (o : Outcome A) : M A :=
  emit e ;;
  match o with
  | Returns a => ret a
  | Throws x => throw x
  end.

(** *** Storage primitives *)

(** [this.sql.exec('SELECT .. FROM job_state WHERE id = 1').one()]: the
    row when there is one; on an empty table the cursor throws.  The result
    is an [option] because the source tests it for truthiness. *)
Definition sql_one : M (option JobRow) :=
  λ r, match job_state (st r) with
       | Some row => (Returns (Some row), r)
       | None =>
           (Throws (JsError
              "Expected exactly one result from SQL query, but got no results."),
            r)
       end.

Definition set_row (f : JobRow → JobRow) (s : DOState) : DOState :=
  {| job_state := f <$> job_state s; scheduled_alarm := scheduled_alarm s |}.

Definition with_status (v : JobStatus) (row : JobRow) : JobRow :=
  {| request := request row; config := config row; log_id := log_id row;
     log_file_id := log_file_id row; status := v;
     created_at := created_at row; error := error row |}.

Definition with_log_file_id (f : string) (row : JobRow) : JobRow :=
  {| request := request row; config := config row; log_id := log_id row;
     log_file_id := Some f; status := status row;
     created_at := created_at row; error := error row |}.

Definition with_error (msg : string) (row : JobRow) : JobRow :=
  {| request := request row; config := config row; log_id := log_id row;
     log_file_id := log_file_id row; status := Failed;
     created_at := created_at row; error := Some msg |}.

(** [UPDATE job_state SET status = .. WHERE id = 1] *)
Definition sql_update_status (v : JobStatus) : M unit :=
  emit (SqlUpdateStatus v) ;; update_state (set_row (with_status v)).

(** [UPDATE job_state SET log_file_id = ? WHERE id = 1] *)
Definition sql_update_log_file_id (f : string) : M unit :=
  emit (SqlUpdateLogFileId f) ;; update_state (set_row (with_log_file_id f)).

(** [UPDATE job_state SET status = 'error', error = ? WHERE id = 1] *)
Definition sql_update_error (msg : string) : M unit :=
  emit (SqlUpdateError msg) ;; update_state (set_row (with_error msg)).

(** [INSERT INTO job_state (id, request, config, log_id, status, created_at)
    VALUES (1, ?, ?, ?, 'accepted', ?)]: the other columns are NULL; a second
    row with [id = 1] violates the primary key. *)
Definition sql_insert (req : KladosRequest) (cfg : KladosJobConfig)
    (logId createdAt : string) : M unit :=
  λ r, match job_state (st r) with
       | Some _ =>
           (Throws (JsError "UNIQUE constraint failed: job_state.id"), r)
       | None =>
           let row := {| request := req; config := cfg; log_id := logId;
                         log_file_id := None; status := Accepted;
                         created_at := createdAt; error := None |} in
           (emit (SqlInsert row) ;;
            update_state (λ s, {| job_state := Some row;
                                  scheduled_alarm := scheduled_alarm s |})) r
       end.

(** [await this.ctx.storage.setAlarm(t)]: one slot, a new time replaces it. *)
Definition setAlarm (t : Z) : M unit :=
  emit (SetAlarm t) ;;
  update_state (λ s, {| job_state := job_state s; scheduled_alarm := Some t |}).

(** *** [KladosLogger] *)

Definition log (l : LogLevel) (msg : string) : M unit :=
  λ r, (Returns (),
        {| st := st r;
           logger := logger r ++ [{| level := l; text := msg |}];
           events := events r |}).

Definition log_all (ms : list LogMessage) : M unit :=
  λ r, (Returns (),
        {| st := st r; logger := logger r ++ ms; events := events r |}).

Definition getMessages : M (list LogMessage) :=
  λ r, (Returns (logger r), r).

(** *** JavaScript truthiness of the values the controller tests *)

(** A [string | null | undefined] is truthy when present and non-empty. *)
Definition truthy (o : option string) : bool :=
  match o with
  | Some s => negb (String.eqb s "")
  | None => false
  end.

(** [result.reschedule], of type [boolean | undefined] *)
Definition truthy_flag (o : option bool) : bool :=
  match o with
  | Some b => b
  | None => false
  end.

(** ** [handleStart] *)

Record StartBody := {
  body_request : KladosRequest;
  body_config : KladosJobConfig;
}.

Definition accepted_response (jobId : string) : Response :=
  Response_json [("accepted", JBool true); ("job_id", JStr jobId)] 200.

Definition handleStart (h : Host) (b : StartBody) : M Response :=
  let kladosRequest := body_request b in
  let config := body_config b in
  existing <- sql_one ;;
  match existing with
  | Some _ => ret (accepted_response (job_id kladosRequest))
  | None =>
      let logId := "log_" +:+ generateId h in
      let now_iso := toISOString h in
      sql_insert kladosRequest config logId now_iso ;;
      setAlarm (now h + 100) ;;
      ret (accepted_response (job_id kladosRequest))
  end.

(** ** [handleStatus] *)

Definition handleStatus : M Response :=
  row <- sql_one ;;
  match row with
  | None => ret (Response_json [("status", JStr "not_found")] 404)
  | Some row =>
      ret (Response_json
             [("status", JStr (status_text (status row)));
              ("error", json_of_option (error row))] 200)
  end.

(** ** [fetch] *)

Definition fetch (h : Host) (pathname : string) (b : StartBody) : M Response :=
  if String.eqb pathname "/start" then handleStart h b
  else if String.eqb pathname "/status" then handleStatus
  else ret {| http_status := 404; body := TextBody "Not found" |}.

(** ** [alarm] *)

Definition initial_log_entry (request : KladosRequest) (config : KladosJobConfig)
    (logId startedAt : string) : KladosLogEntry :=
  {| entry_id := logId;
     entry_klados_id := agentId config;
     entry_rhiza_id := rhiza_id <$> rhiza request;
     entry_job_id := job_id request;
     entry_started_at := startedAt;
     entry_status := "running";
     received_target_entity := target_entity request;
     received_target_entities := target_entities request;
     received_target_collection := target_collection request;
     received_from_logs := rhiza request ≫= parent_logs;
     received_batch := rhiza request ≫= batch;
     received_scatter_total := rhiza request ≫= scatter_total |}.

(** [await processJob({ request, client, logger, sql })]: whatever the
    callback logged is in the logger, whether it returns or throws. *)
Definition run_processJob (b : Behaviour) (request : KladosRequest)
    : M ProcessResult :=
  emit (CallProcessJob request) ;;
  log_all (processJob_logs b) ;;
  match processJob b with
  | Returns result => ret result
  | Throws e => throw e
  end.

(** The block guarded by [if (request.rhiza && result.outputs)]. *)
Definition handoff (b : Behaviour) (request : KladosRequest)
    (logFileId : string) (result : ProcessResult) : M unit :=
  match rhiza request, outputs result with
  | Some rz, Some outs =>
      resp <- call (CallGetEntity (rhiza_id rz)) (get_entity b) ;;
      match get_error resp, data resp with
      | None, Some rhizaEntity =>
          let currentStepName := path rz ≫= last in
          match currentStepName, flow rhizaEntity with
          | Some name, Some fl =>
              if truthy currentStepName then
                match (fl !! name) ≫= then_ with
                | Some spec =>
                    handoffResult <-
                      call (CallInterpretThen spec outs logFileId)
                           (interpretThen b) ;;
                    match handoffRecord handoffResult with
                    | Some record =>
                        call (CallUpdateLogWithHandoffs logFileId [record])
                             (updateLogWithHandoffs b)
                    | None => ret ()
                    end ;;
                    log Info ("Handoff: " +:+ action handoffResult)
                | None => ret ()
                end
              else ret ()
          | _, _ => ret ()
          end
      | _, _ => throw (JsError ("Failed to fetch rhiza: " +:+ rhiza_id rz))
      end
  | _, _ => ret ()
  end.

(** The body of the [try] block. *)
Definition alarm_try (b : Behaviour) (row : JobRow) : M unit :=
  let request := request row in
  let config := config row in
  let logId := log_id row in
  logFileId <-
    (if negb (truthy (log_file_id row)) then
       messages <- getMessages ;;
       fileId <-
         call (CallWriteKladosLog
                 (initial_log_entry request config logId (toISOString (host b)))
                 messages)
              (writeKladosLog b) ;;
       sql_update_log_file_id fileId ;;
       ret fileId
     else ret (default "" (log_file_id row))) ;;
  result <- run_processJob b request ;;
  if truthy_flag (reschedule result) then
    log Info "Rescheduling for continued processing" ;;
    setAlarm (now (host b) + 1000)
  else
    handoff b request logFileId result ;;
    log Success "Job completed" ;;
    messages <- getMessages ;;
    call (CallUpdateLogStatus logFileId "done" messages) (updateLogStatus b) ;;
    sql_update_status Done.

(** The body of the [catch (error)] block. *)
Definition alarm_catch (b : Behaviour) (row : JobRow) (err : Thrown) : M unit :=
  let errorMessage := error_message err in
  log ErrorLevel "Job failed" ;;
  match log_file_id row with
  | Some logFileId =>
      if truthy (log_file_id row) then
        messages <- getMessages ;;
        call (CallFailKlados logFileId (rhiza (request row) ≫= batch) err messages)
             (failKlados b)
      else ret ()
  | None => ret ()
  end ;;
  sql_update_error errorMessage.

Definition alarm (b : Behaviour) : M unit :=
  row <- sql_one ;;
  match row with
  | None => ret ()
  | Some row =>
      match status row with
      | Done | Failed => ret ()
      | Accepted | Processing =>
          sql_update_status Processing ;;
          try_catch (alarm_try b row) (alarm_catch b row)
      end
  end.

(** ** Operations on one durable object *)

Inductive Op :=
  | Start (h : Host) (b : StartBody)
  | Status
  | Alarm (b : Behaviour).

(** One operation run to its end, from a durable state: the outcome is
    forgotten, the state and the trace are what an observer can see. *)
Definition perform (op : Op) (s : DOState) : Run :=
  match op with
  | Start h b => (fetch h "/start" b (start_run s)).2
  | Status => (handleStatus (start_run s)).2
  | Alarm b => (alarm b (start_run s)).2
  end.

Definition step (op : Op) (s : DOState) : DOState := st (perform op s).

Definition effects (op : Op) (s : DOState) : list Event := events (perform op s).

(** The states an object goes through under a sequence of operations (the
    state after each one), and the whole trace. *)
Fixpoint states_of (ops : list Op) (s : DOState) : list DOState :=
  match ops with
  | [] => []
  | op :: ops' => step op s :: states_of ops' (step op s)
  end.

Fixpoint trace_of (ops : list Op) (s : DOState) : list Event :=
  match ops with
  | [] => []
  | op :: ops' => effects op s ++ trace_of ops' (step op s)
  end.

Definition final_state (ops : list Op) (s : DOState) : DOState :=
  foldl (λ s op, step op s) s ops.

Definition is_terminal (v : JobStatus) : bool :=
  match v with
  | Done | Failed => true
  | Accepted | Processing => false
  end.

Definition count_events (p : Event → bool) (l : list Event) : nat :=
  length (List.filter p l).

Definition is_write_log (e : Event) : bool :=
  match e with CallWriteKladosLog _ _ => true | _ => false end.

Definition is_fail_klados (e : Event) : bool :=
  match e with CallFailKlados _ _ _ _ => true | _ => false end.

Definition is_done_transition (e : Event) : bool :=
  match e with SqlUpdateStatus Done => true | _ => false end.

(** Handoff and log finalization: the calls of the success path after the
    [reschedule] test, and the failure finalizer. *)
Definition is_handoff_or_finalize (e : Event) : bool :=
  match e with
  | CallGetEntity _ | CallInterpretThen _ _ _ | CallUpdateLogWithHandoffs _ _
  | CallUpdateLogStatus _ _ _ | CallFailKlados _ _ _ _ => true
  | _ => false
  end.

(** The log file the [try] block works with once the initial log is settled:
    the stored one when it is truthy, otherwise what [writeKladosLog] gives. *)
Definition log_file_in_use (b : Behaviour) (row : JobRow) : Outcome string :=
  if truthy (log_file_id row) then Returns (default "" (log_file_id row))
  else writeKladosLog b.

(** ** Predicates of the statements *)

(** The object holds a JobState whose status is done or error. *)
Definition terminal (s : DOState) : Prop :=
  ∃ row, job_state s = Some row ∧ is_terminal (status row) = true.

(** The object holds the JobState [row], accepted or processing. *)
Definition live (s : DOState) (row : JobRow) : Prop :=
  job_state s = Some row ∧ is_terminal (status row) = false.

(** The calls made by the handoff block. *)
Definition is_handoff_call (e : Event) : bool :=
  match e with
  | CallGetEntity _ | CallInterpretThen _ _ _ | CallUpdateLogWithHandoffs _ _ => true
  | _ => false
  end.

(** The flow collaborators all answer: the entity GET resolves with data and
    no error, [interpretThen] and [updateLogWithHandoffs] return. *)
Definition flow_answers (b : Behaviour) : Prop :=
  (∃ entity, get_entity b = Returns {| data := Some entity; get_error := None |})
  ∧ (∃ result, interpretThen b = Returns result)
  ∧ updateLogWithHandoffs b = Returns ().

(** The events of an alarm that reschedules: nothing of the handoff, of the
    log finalization or of the failure path, and no transition to done. *)
Definition quiet (e : Event) : Prop :=
  is_handoff_or_finalize e = false ∧ is_done_transition e = false.

(** The row once the initial log is settled with file [f]. *)
Definition settled (f : string) (row : JobRow) : JobRow :=
  if truthy (log_file_id row) then row else with_log_file_id f row.

(** What the initial-log step of the [try] block does when it succeeds. *)
Definition initial_log_events (b : Behaviour) (f : string) (row : JobRow)
    : list Event :=
  if truthy (log_file_id row) then []
  else [CallWriteKladosLog
          (initial_log_entry (request row) (config row) (log_id row)
             (toISOString (host b))) [];
        SqlUpdateLogFileId f].

(** The same behaviour with another result of the callback. *)
Definition with_processJob (o : Outcome ProcessResult) (b : Behaviour) : Behaviour :=
  {| host := host b; writeKladosLog := writeKladosLog b;
     processJob_logs := processJob_logs b; processJob := o;
     get_entity := get_entity b; interpretThen := interpretThen b;
     updateLogWithHandoffs := updateLogWithHandoffs b;
     updateLogStatus := updateLogStatus b; failKlados := failKlados b |}.

(** The [error] column is set exactly on a failed row. *)
Definition consistent (s : DOState) : Prop :=
  ∀ row, job_state s = Some row → (error row ≠ None ↔ status row = Failed).

(** The callback returns and asks for another resumption. *)
Definition continues (b : Behaviour) : Prop :=
  ∃ result, processJob b = Returns result
            ∧ truthy_flag (reschedule result) = true.

(** The callback returns its final result and the collaborators of the
    success path answer. *)
Definition succeeds (b : Behaviour) : Prop :=
  (∃ result, processJob b = Returns result
             ∧ truthy_flag (reschedule result) = false)
  ∧ flow_answers b
  ∧ updateLogStatus b = Returns ().

(** [writeKladosLog] answers with the id of the file it created. *)
Definition log_written (b : Behaviour) : Prop :=
  ∃ f, writeKladosLog b = Returns f ∧ f ≠ "".

(** [log_file_id] is written. *)
Definition is_log_file_update (e : Event) : bool :=
  match e with SqlUpdateLogFileId _ => true | _ => false end.

(** One resumption: one invocation of the callback. *)
Definition is_callback (e : Event) : bool :=
  match e with CallProcessJob _ => true | _ => false end.

(** The row's [log_file_id] is [f]. *)
Definition has_log_file (f : string) (s : DOState) : Prop :=
  ∃ row, job_state s = Some row ∧ log_file_id row = Some f.

(** The behaviour of the first of the resumptions [bs] then [b_last]. *)
Definition first_resumption (bs : list Behaviour) (b_last : Behaviour) : Behaviour :=
  default b_last (head bs).

(** ** Sample jobs *)

Definition sample_config : KladosJobConfig :=
  {| agentId := "klados_echo"; agentVersion := "1.0.0"; authToken := "key" |}.

Definition sample_request : KladosRequest :=
  {| job_id := "job_1"; api_base := "https://arke.example"; network := "test";
     rhiza := None; target_entity := Some "e1"; target_entities := None;
     target_collection := "col_work"; job_collection := "col_jobs" |}.

(** The same job with another payload. *)
Definition other_request : KladosRequest :=
  {| job_id := "job_1"; api_base := "https://arke.example"; network := "test";
     rhiza := None; target_entity := Some "e2"; target_entities := None;
     target_collection := "col_other"; job_collection := "col_jobs" |}.

Definition sample_host : Host :=
  {| generateId := "01J"; toISOString := "2025-01-01T00:00:00.000Z";
     now := 1735689600000 |}.

Definition later_host : Host :=
  {| generateId := "01K"; toISOString := "2025-01-01T00:00:05.000Z";
     now := 1735689605000 |}.

Definition sample_body : StartBody :=
  {| body_request := sample_request; body_config := sample_config |}.

Definition other_body : StartBody :=
  {| body_request := other_request; body_config := sample_config |}.

(** Every collaborator answers; the callback returns one output. *)
Definition answering : Behaviour :=
  {| host := later_host;
     writeKladosLog := Returns "file_1";
     processJob_logs := [{| level := Info; text := "Starting job processing" |}];
     processJob := Returns {| outputs := Some ["o1"]; reschedule := None |};
     get_entity :=
       Returns {| data := Some {| flow := None |}; get_error := None |};
     interpretThen :=
       Returns {| handoffRecord := None; action := "done";
                  target := None; targetType := None |};
     updateLogWithHandoffs := Returns ();
     updateLogStatus := Returns ();
     failKlados := Returns () |}.

Definition continuing : Behaviour :=
  with_processJob (Returns {| outputs := None; reschedule := Some true |})
    answering.

Definition continuing_with_outputs : Behaviour :=
  with_processJob (Returns {| outputs := Some ["o1"]; reschedule := Some true |})
    answering.

Definition callback_throws : Behaviour :=
  with_processJob (Throws (JsError "X")) answering.

(** The callback throws and so does the failure finalizer. *)
Definition finalizer_throws : Behaviour :=
  {| host := later_host;
     writeKladosLog := Returns "file_1";
     processJob_logs := [];
     processJob := Throws (JsError "X");
     get_entity := get_entity answering;
     interpretThen := interpretThen answering;
     updateLogWithHandoffs := Returns ();
     updateLogStatus := Returns ();
     failKlados := Throws (JsError "Y") |}.

(** A job as the INSERT of [handleStart] stores it, with its first alarm. *)
Definition started_row : JobRow :=
  {| request := sample_request; config := sample_config; log_id := "log_01J";
     log_file_id := None; status := Accepted;
     created_at := "2025-01-01T00:00:00.000Z"; error := None |}.

Definition started : DOState :=
  {| job_state := Some started_row; scheduled_alarm := Some 1735689600100 |}.

(** The state after one resumption on which the callback continued. *)
Definition resumed_row : JobRow :=
  with_log_file_id "file_1" (with_status Processing started_row).

Definition resumed : DOState :=
  {| job_state := Some resumed_row; scheduled_alarm := Some 1735689606000 |}.

Definition finished : DOState :=
  {| job_state := Some (with_status Done resumed_row);
     scheduled_alarm := Some 1735689606000 |}.

(** A job at step [stepA] of a workflow whose flow continues after it. *)
Definition workflow_request : KladosRequest :=
  {| job_id := "job_2"; api_base := "https://arke.example"; network := "test";
     rhiza := Some {| rhiza_id := "rhiza_1"; path := Some ["stepA"];
                      parent_logs := None; batch := None;
                      scatter_total := None |};
     target_entity := Some "e1"; target_entities := None;
     target_collection := "col_work"; job_collection := "col_jobs" |}.

Definition workflow_started : DOState :=
  {| job_state :=
       Some {| request := workflow_request; config := sample_config;
               log_id := "log_01J"; log_file_id := None; status := Accepted;
               created_at := "2025-01-01T00:00:00.000Z"; error := None |};
     scheduled_alarm := Some 1735689600100 |}.

Definition handing_off : Behaviour :=
  {| host := later_host;
     writeKladosLog := Returns "file_2";
     processJob_logs := [];
     processJob := Returns {| outputs := Some ["o1"; "o2"]; reschedule := None |};
     get_entity :=
       Returns
         {| data :=
              Some {| flow :=
                        Some {[ "stepA" :=
                                  {| then_ := Some {| directive := "pass stepB" |} |} ]} |};
            get_error := None |};
     interpretThen :=
       Returns {| handoffRecord := Some {| record_text := "to stepB" |};
                  action := "pass"; target := Some "stepB";
                  targetType := Some "klados" |};
     updateLogWithHandoffs := Returns ();
     updateLogStatus := Returns ();
     failKlados := Returns () |}.

(** ** The order of the statuses *)

(** accepted, then processing, then one of the two final statuses. *)
Definition rank (v : JobStatus) : nat :=
  match v with
  | Accepted => 0
  | Processing => 1
  | Done | Failed => 2
  end.

Definition is_set_alarm (e : Event) : bool :=
  match e with SetAlarm _ => true | _ => false end.

Definition is_interpret (e : Event) : bool :=
  match e with CallInterpretThen _ _ _ => true | _ => false end.

Definition is_log_finalize (e : Event) : bool :=
  match e with CallUpdateLogStatus _ _ _ => true | _ => false end.

(** The continuation directive the handoff block finds for a job: the
    [then] of the flow step named by the last segment of the job's path. *)
Definition continuation (rz : RhizaContext) (entity : RhizaEntity)
    : option ThenSpec :=
  match path rz ≫= last, flow entity with
  | Some name, Some fl =>
      if truthy (Some name) then (fl !! name) ≫= then_ else None
  | _, _ => None
  end.

(** What the handoff block throws, if anything, read off the collaborators:
    the rejection of the rhiza GET, [Failed to fetch rhiza] when it resolves
    with an error or without data, the rejection of [interpretThen], or that
    of [updateLogWithHandoffs] when there is a record to append. *)
Definition handoff_failure (b : Behaviour) (request : KladosRequest)
    (result : ProcessResult) : option Thrown :=
  match rhiza request, outputs result with
  | Some rz, Some _ =>
      match get_entity b with
      | Throws e => Some e
      | Returns resp =>
          match get_error resp, data resp with
          | None, Some entity =>
              match continuation rz entity with
              | None => None
              | Some _ =>
                  match interpretThen b with
                  | Throws e => Some e
                  | Returns handoffResult =>
                      match handoffRecord handoffResult with
                      | Some _ =>
                          match updateLogWithHandoffs b with
                          | Throws e => Some e
                          | Returns _ => None
                          end
                      | None => None
                      end
                  end
              end
          | _, _ => Some (JsError ("Failed to fetch rhiza: " +:+ rhiza_id rz))
          end
      end
  | _, _ => None
  end.

(** The first thing that fails in the [try] block of an alarm, if anything:
    the initial log write, the callback, then (unless the callback asks to
    continue) the handoff and the finalization of the log. *)
Definition first_failure (b : Behaviour) (row : JobRow) : option Thrown :=
  match log_file_in_use b row with
  | Throws e => Some e
  | Returns _ =>
      match processJob b with
      | Throws e => Some e
      | Returns result =>
          if truthy_flag (reschedule result) then None
          else
            match handoff_failure b (request row) result with
            | Some e => Some e
            | None =>
                match updateLogStatus b with
                | Throws e => Some e
                | Returns _ => None
                end
            end
      end
  end.

(** The message of the cursor's [one()] on an empty table. *)
Definition no_results : Thrown :=
  JsError "Expected exactly one result from SQL query, but got no results.".

(** ** The processing callback of the template ([src/job.ts])

    [processJob] fetches the target entity, derives a result and creates one
    output entity.  Its two API calls are external: each returns the
    [{ data, error }] pair of the client or throws.  The callback has its own
    small monad: the logger it shares with the alarm, and the API calls it
    makes. *)

Module Job.

Record TargetEntity := {
  target_id : string;
  target_type : string;
  title : option string;
}.

Record TargetResponse := {
  target : option TargetEntity;
  fetchError : option ApiError;
}.

Record OutputEntity := { output_id : string }.

(** The error object of the POST, by what [JSON.stringify] renders. *)
Record CreateError := { stringified : string }.

Record CreateResponse := {
  output : option OutputEntity;
  createError : option CreateError;
}.

(** The body of [POST /entities]. *)
Record CreateBody := {
  body_type : string;
  body_collection : string;
  body_result : string;
  body_source_id : string;
  body_processed_at : string;
  relationship_predicate : string;
  relationship_peer : string;
  relationship_peer_type : string;
}.

Inductive ApiCall :=
  | GET (id : string)
  | POST (b : CreateBody).

(** What the API answers during one invocation of the callback. *)
Record Api := {
  get_target : Outcome TargetResponse;
  post_output : Outcome CreateResponse;
  processed_at : string;
}.

Record State := {
  messages : list LogMessage;
  calls : list ApiCall;
}.

Definition start : State := {| messages := []; calls := [] |}.

Definition J (A : Type) : Type := State → Outcome A * State.

Definition ret {A} (a : A) : J A := λ r, (Returns a, r).

Definition bind {A B} (m : J A) (k : A → J B) : J B :=
  λ r, match m r with
       | (Returns a, r') => k a r'
       | (Throws e, r') => (Throws e, r')
       end.

Definition throw {A} (e : Thrown) : J A := λ r, (Throws e, r).

Definition log (l : LogLevel) (msg : string) : J unit :=
  λ r, (Returns (),
        {| messages := messages r ++ [{| level := l; text := msg |}];
           calls := calls r |}).

Definition call {A} (c : ApiCall) (o : Outcome A) : J A :=
  λ r, (o, {| messages := messages r; calls := calls r ++ [c] |}).

Declare Scope job_scope.
Delimit Scope job_scope with job.
Notation "x <- c1 ;; c2" := (bind c1 (λ x, c2))
  (at level 100, c1 at next level, right associativity) : job_scope.
Notation "c1 ;; c2" := (bind c1 (λ _, c2))
  (at level 100, right associativity) : job_scope.

(** [JSON.stringify(createError)], also when there is no error object. *)
Definition stringify (e : option CreateError) : string :=
  match e with
  | Some e => stringified e
  | None => "undefined"
  end.

(** [properties.title || 'untitled'] *)
Definition title_or_untitled (t : option string) : string :=
  if truthy t then default "" t else "untitled".

(** [processEntity]: the example processing (its delay is not modelled). *)
Definition processEntity (entityId : string) (properties : TargetEntity)
    : string :=
  "Processed entity " +:+ entityId +:+ ": "
    +:+ title_or_untitled (title properties).

Definition processJob (api : Api) (request : KladosRequest)
    : J ProcessResult :=
  (log Info "Starting job processing" ;;
   if negb (truthy (target_entity request)) then
     throw (JsError "No target_entity in request")
   else
     let id := default "" (target_entity request) in
     resp <- call (GET id) (get_target api) ;;
     match fetchError resp, target resp with
     | None, Some target =>
         log Info "Fetched target entity" ;;
         log Info "Processing entity..." ;;
         let result := processEntity (target_id target) target in
         log Info "Processing complete" ;;
         created <-
           call (POST {| body_type := "processed_output";
                         body_collection := target_collection request;
                         body_result := result;
                         body_source_id := target_id target;
                         body_processed_at := processed_at api;
                         relationship_predicate := "derived_from";
                         relationship_peer := target_id target;
                         relationship_peer_type := target_type target |})
                (post_output api) ;;
         match createError created, output created with
         | None, Some output =>
             log Success "Created output entity" ;;
             ret {| outputs := Some [output_id output]; reschedule := None |}
         | _, _ =>
             throw (JsError ("Failed to create output entity: "
                             +:+ stringify (createError created)))
         end
     | _, _ => throw (JsError ("Failed to fetch target: " +:+ id))
     end)%job.

End Job.

(** The behaviour of an alarm whose callback is the template's [processJob],
    run on [request] against the API [api]; the other collaborators are as
    in [b]. *)
Definition with_template_job (api : Job.Api) (request : KladosRequest)
    (b : Behaviour) : Behaviour :=
  {| host := host b; writeKladosLog := writeKladosLog b;
     processJob_logs := Job.messages (Job.processJob api request Job.start).2;
     processJob := (Job.processJob api request Job.start).1;
     get_entity := get_entity b; interpretThen := interpretThen b;
     updateLogWithHandoffs := updateLogWithHandoffs b;
     updateLogStatus := updateLogStatus b; failKlados := failKlados b |}.

(** ** The worker ([src/index.ts])

    The bindings of the worker as the code uses them: the three agent
    variables, which go into the job config, are strings; the two
    verification values may be missing.  The Durable Object namespace
    [KLADOS_JOB] is a map from object names to object states; an object
    that was never addressed is [fresh]. *)

Record Env := {
  AGENT_ID : string;
  AGENT_VERSION : string;
  ARKE_AGENT_KEY : string;
  VERIFICATION_TOKEN : option string;
  ARKE_VERIFY_AGENT_ID : option string;
}.

(** [c.env.ARKE_VERIFY_AGENT_ID || c.env.AGENT_ID] *)
Definition verification_klados_id (env : Env) : string :=
  if truthy (ARKE_VERIFY_AGENT_ID env) then default "" (ARKE_VERIFY_AGENT_ID env)
  else AGENT_ID env.

(** [app.get('/.well-known/arke-verification', ..)] *)
Definition arke_verification (env : Env) : Response :=
  let token := VERIFICATION_TOKEN env in
  let kladosId := verification_klados_id env in
  if negb (truthy token) || String.eqb kladosId "" then
    Response_json [("error", JStr "Verification not configured")] 500
  else
    Response_json [("verification_token", JStr (default "" token));
                   ("klados_id", JStr kladosId)] 200.

(** [c.env.KLADOS_JOB.get(c.env.KLADOS_JOB.idFromName(name))] *)
Definition object_named (name : string) (ns : gmap string DOState) : DOState :=
  default fresh (ns !! name).

(** The config the worker sends along with the request. *)
Definition config_of (env : Env) : KladosJobConfig :=
  {| agentId := AGENT_ID env; agentVersion := AGENT_VERSION env;
     authToken := ARKE_AGENT_KEY env |}.

(** [app.post('/process', ..)]: the object named by the job id handles
    [/start]; its JSON answer is passed on.  The result is the answer, the
    namespace afterwards and what the object did. *)
Definition process (env : Env) (h : Host) (req : KladosRequest)
    (ns : gmap string DOState)
    : Outcome Response * gmap string DOState * list Event :=
  let name := job_id req in
  let run :=
    fetch h "/start" {| body_request := req; body_config := config_of env |}
      (start_run (object_named name ns)) in
  let answer :=
    match run.1 with
    | Returns response =>
        match body response with
        | JsonBody fields => Returns (Response_json fields 200)
        | TextBody _ => Throws (JsOther "SyntaxError")
        end
    | Throws e => Throws e
    end in
  (answer, <[name := st run.2]> ns, events run.2).

(** More sample data for the instances. *)
Definition sample_env : Env :=
  {| AGENT_ID := "klados_echo"; AGENT_VERSION := "1.0.0";
     ARKE_AGENT_KEY := "key"; VERIFICATION_TOKEN := Some "vt_1";
     ARKE_VERIFY_AGENT_ID := Some "klados_pending" |}.

Definition sample_target : Job.TargetEntity :=
  {| Job.target_id := "e1"; Job.target_type := "document";
     Job.title := Some "Report" |}.

Definition sample_api : Job.Api :=
  {| Job.get_target :=
       Returns {| Job.target := Some sample_target; Job.fetchError := None |};
     Job.post_output :=
       Returns {| Job.output := Some {| Job.output_id := "o1" |};
                  Job.createError := None |};
     Job.processed_at := "2025-01-01T00:00:05.100Z" |}.

Definition failing_api : Job.Api :=
  {| Job.get_target :=
       Returns {| Job.target := None;
                  Job.fetchError := Some {| api_message := "not found" |} |};
     Job.post_output := Job.post_output sample_api;
     Job.processed_at := "2025-01-01T00:00:05.100Z" |}.

Definition no_target_request : KladosRequest :=
  {| job_id := "job_3"; api_base := "https://arke.example"; network := "test";
     rhiza := None; target_entity := None; target_entities := None;
     target_collection := "col_work"; job_collection := "col_jobs" |}.

(** The rhiza entity cannot be fetched. *)
Definition rhiza_unreachable : Behaviour :=
  {| host := later_host;
     writeKladosLog := Returns "file_2";
     processJob_logs := [];
     processJob := processJob handing_off;
     get_entity :=
       Returns {| data := None;
                  get_error := Some {| api_message := "not found" |} |};
     interpretThen := interpretThen handing_off;
     updateLogWithHandoffs := Returns ();
     updateLogStatus := Returns ();
     failKlados := Returns () |}.

(** The rhiza has no flow to continue with. *)
Definition flow_ends_here : Behaviour :=
  {| host := later_host;
     writeKladosLog := Returns "file_2";
     processJob_logs := [];
     processJob := processJob handing_off;
     get_entity :=
       Returns {| data := Some {| flow := None |}; get_error := None |};
     interpretThen := interpretThen handing_off;
     updateLogWithHandoffs := Returns ();
     updateLogStatus := Returns ();
     failKlados := Returns () |}.

(** The initial log cannot be written. *)
Definition log_unwritable : Behaviour :=
  {| host := later_host;
     writeKladosLog := Throws (JsError "log store down");
     processJob_logs := processJob_logs answering;
     processJob := processJob answering;
     get_entity := get_entity answering;
     interpretThen := interpretThen answering;
     updateLogWithHandoffs := Returns ();
     updateLogStatus := Returns ();
     failKlados := Returns () |}.

Definition workflow_row : JobRow :=
  {| request := workflow_request; config := sample_config;
     log_id := "log_01J"; log_file_id := None; status := Accepted;
     created_at := "2025-01-01T00:00:00.000Z"; error := None |}.

Definition workflow_rhiza : RhizaContext :=
  {| rhiza_id := "rhiza_1"; path := Some ["stepA"];
     parent_logs := None; batch := None; scatter_total := None |}.

Definition no_target_row : JobRow :=
  {| request := no_target_request; config := sample_config;
     log_id := "log_01J"; log_file_id := None; status := Accepted;
     created_at := "2025-01-01T00:00:00.000Z"; error := None |}.

Definition no_target_started : DOState :=
  {| job_state := Some no_target_row; scheduled_alarm := Some 1735689600100 |}.

(** [writeKladosLog] answers the empty string; the callback continues. *)
Definition empty_id_continuing : Behaviour :=
  {| host := later_host; writeKladosLog := Returns "";
     processJob_logs := [];
     processJob := Returns {| outputs := None; reschedule := Some true |};
     get_entity := get_entity answering;
     interpretThen := interpretThen answering;
     updateLogWithHandoffs := Returns ();
     updateLogStatus := Returns ();
     failKlados := Returns () |}.

(** The next resumption: [writeKladosLog] answers [file_2], the callback
    succeeds. *)
Definition second_id_answering : Behaviour :=
  {| host := later_host; writeKladosLog := Returns "file_2";
     processJob_logs := [];
     processJob := processJob answering;
     get_entity := get_entity answering;
     interpretThen := interpretThen answering;
     updateLogWithHandoffs := Returns ();
     updateLogStatus := Returns ();
     failKlados := Returns () |}.

(** * Properties *)

(** Unfolding of the monad and of the storage primitives. *)
Ltac run_monad :=
  cbv [bind ret throw try_catch call emit update_state sql_one sql_insert
       sql_update_status sql_update_log_file_id sql_update_error setAlarm
       log log_all getMessages start_run set_row
       st logger events] in *;
  cbn [app job_state scheduled_alarm fst snd fmap option_fmap option_map] in *.

Lemma status_text_not_found v : status_text v ≠ "not_found".
Proof. destruct v; cbn; discriminate. Qed.

(** ** Start *)

Lemma handleStart_existing h b s row :
  job_state s = Some row →
  handleStart h b (start_run s)
  = (Returns (accepted_response (job_id (body_request b))), start_run s).
Proof. destruct s as [[row'|] slot]; [reflexivity | discriminate]. Qed.

Lemma handleStart_empty h b s :
  job_state s = None →
  handleStart h b (start_run s) = (Throws no_results, start_run s).
Proof. destruct s as [[row|] slot]; [discriminate | reflexivity]. Qed.

(** C2 (the code departs from it). On an object whose table is empty the
    lookup [one()] of [handleStart] throws before the test [if (existing)]:
    the first start inserts no row, sets no alarm and returns no
    acceptance, and a second start finds the object as empty as the first
    and throws again. *)
Theorem first_start_throws_on_empty_table (h1 h2 : Host) (b1 b2 : StartBody)
    (s : DOState) :
  job_state s = None →
  let first := handleStart h1 b1 (start_run s) in
  let second := handleStart h2 b2 (start_run (st first.2)) in
  first.1 = Throws no_results
  ∧ st first.2 = s ∧ events first.2 = []
  ∧ second.1 = Throws no_results
  ∧ st second.2 = s ∧ events second.2 = [].
Proof.
  intros Hnone first second. subst first second.
  rewrite (handleStart_empty _ _ _ Hnone). cbn [fst snd st start_run events].
  rewrite (handleStart_empty _ _ _ Hnone). by repeat split.
Qed.

(** ** Status *)

(** C9 (the code departs from it). A status query on an object with a
    JobState answers 200 with the persisted status and error and changes
    nothing; on an object whose table is empty the lookup [one()] throws
    before the test [if (!row)], so no not-found answer is given. *)
Theorem status_query_throws_on_empty_table (s : DOState) :
  (∀ row, job_state s = Some row →
     handleStatus (start_run s)
     = (Returns (Response_json
                   [("status", JStr (status_text (status row)));
                    ("error", json_of_option (error row))] 200),
        start_run s))
  ∧ (job_state s = None →
     handleStatus (start_run s) = (Throws no_results, start_run s)).
Proof.
  destruct s as [[row|] slot]; split; try discriminate.
  - intros ? [= <-]. reflexivity.
  - intros _. reflexivity.
Qed.

(** ** Terminal states *)

Lemma alarm_terminal b s :
  terminal s → alarm b (start_run s) = (Returns (), start_run s).
Proof.
  intros (row & Hrow & Hterm). destruct s as [[row'|] slot]; [| discriminate].
  injection Hrow as ->. unfold alarm. run_monad.
  destruct (status row); [discriminate | discriminate | reflexivity | reflexivity].
Qed.

Lemma perform_terminal op s : terminal s → perform op s = start_run s.
Proof.
  intros Hterm. destruct op as [h b | | b]; unfold perform.
  - destruct Hterm as (row & Hrow & _). unfold fetch. cbn [String.eqb Ascii.eqb Bool.eqb].
    by rewrite (handleStart_existing _ _ _ _ Hrow).
  - destruct Hterm as (row & Hrow & _).
    destruct s as [[row'|] slot]; [reflexivity | discriminate].
  - by rewrite alarm_terminal.
Qed.

(** C3. From a JobState whose status is done or error, any sequence of
    operations (alarm firings with any collaborator behaviour, start
    requests, status queries) leaves the state as it is after every
    operation and produces no effect at all: no status update, no callback,
    no log write, no alarm. *)
Theorem terminal_states_are_absorbing (s : DOState) (ops : list Op) :
  terminal s →
  final_state ops s = s
  ∧ Forall (λ s', s' = s) (states_of ops s)
  ∧ trace_of ops s = [].
Proof.
  intros Hterm. induction ops as [| op ops IH]; [by repeat split |].
  unfold final_state in *. cbn [foldl states_of trace_of].
  unfold effects, step. rewrite (perform_terminal op s Hterm).
  cbn [st events start_run app]. destruct IH as (IH1 & IH2 & IH3).
  repeat split; auto.
Qed.

(** ** One alarm on a live job *)

Ltac break_match :=
  match goal with
  | |- context [match ?x with _ => _ end] =>
      lazymatch x with
      | context [match _ with _ => _ end] => fail
      | _ => destruct x eqn:?
      end
  end.

Ltac proj_simpl :=
  cbn [status log_file_id error request config log_id created_at host
       writeKladosLog processJob_logs processJob get_entity interpretThen
       updateLogWithHandoffs updateLogStatus failKlados
       with_status with_log_file_id with_error
       truthy truthy_flag negb default from_option fst snd] in *.

Ltac alarm_unfold :=
  unfold alarm, alarm_try, alarm_catch, run_processJob, log_file_in_use in *;
  run_monad; proj_simpl.

(** The handoff block writes nothing to the table or the alarm slot and
    only calls the flow collaborators. *)
Lemma handoff_frame b req f res r :
  st (handoff b req f res r).2 = st r
  ∧ ∃ evs, events (handoff b req f res r).2 = (events r ++ evs)
           ∧ Forall (λ e, is_handoff_call e = true) evs.
Proof.
  unfold handoff. run_monad.
  repeat (break_match; run_monad; cbn [fst snd]);
    (split; [reflexivity |]);
    rewrite <- ?app_assoc; eexists;
    (split; [try reflexivity; symmetry; apply app_nil_r | repeat constructor]).
Qed.

Ltac fold_handoff :=
  match goal with
  | |- context [handoff ?b ?q ?f ?res ?r] =>
      let H := fresh "Hframe" in
      let o := fresh "o" in
      let r' := fresh "r'" in
      pose proof (handoff_frame b q f res r) as H;
      destruct (handoff b q f res r) as [o r'];
      cbn [fst snd] in H;
      destruct H as (? & ? & ? & ?);
      destruct r'; cbn [st events logger] in *; subst
  end.

Ltac open_live s row b Hlive :=
  let slot := fresh "slot" in
  let row' := fresh "row" in
  destruct s as [[row'|] slot]; destruct Hlive as [[= ->] Hlive];
  destruct row as [rq cf lid lf stt ca er], b as [h wl pl pj ge it ulh uls fk];
  cbn [status log_file_id error request config log_id created_at host
       writeKladosLog processJob_logs processJob get_entity interpretThen
       updateLogWithHandoffs updateLogStatus failKlados] in *.

Lemma handoff_returns b req f res r :
  flow_answers b → (handoff b req f res r).1 = Returns ().
Proof.
  intros ((entity & Hget) & (result & Hint) & Hupd).
  unfold handoff. run_monad. rewrite Hget, Hint, Hupd. cbn [data get_error].
  repeat (break_match; run_monad; cbn [fst snd]); reflexivity.
Qed.

(** C6 (amended). When the callback is invoked and throws an [Error] with
    message [X], and the failure finalizer returns when the catch block calls
    it (which it does when the row already held a log file id as the alarm
    fired), the alarm returns and leaves [status = error] and [error = X]
    persisted. *)
Theorem callback_failure_is_recorded (b : Behaviour) (s : DOState)
    (row : JobRow) (f X : string) :
  live s row →
  log_file_in_use b row = Returns f →
  processJob b = Throws (JsError X) →
  (truthy (log_file_id row) = true → failKlados b = Returns ()) →
  (alarm b (start_run s)).1 = Returns ()
  ∧ ∃ row', job_state (st (alarm b (start_run s)).2) = Some row'
            ∧ status row' = Failed ∧ error row' = Some X.
Proof.
  intros Hlive Huse Hcb Hfail.
  destruct s as [[row'|] slot]; destruct Hlive as [[= ->] Hlive].
  destruct row as [rq cf lid lf stt ca er], b as [h wl pl pj ge it ulh uls fk].
  cbn in *. subst pj. alarm_unfold. cbn in *.
  destruct stt; try discriminate; destruct lf as [lf|]; cbn in *;
    try destruct (String.eqb lf ""); cbn in *; subst; cbn;
    try rewrite Hfail by reflexivity; cbn; eauto.
Qed.

(** The whole run of an alarm on which the callback asks to continue. *)
Lemma alarm_continue b s row f result :
  live s row →
  log_file_in_use b row = Returns f →
  processJob b = Returns result →
  truthy_flag (reschedule result) = true →
  alarm b (start_run s)
  = (Returns (),
     {| st := {| job_state := Some (settled f (with_status Processing row));
                 scheduled_alarm := Some (now (host b) + 1000) |};
        logger := (processJob_logs b
                   ++ [{| level := Info;
                          text := "Rescheduling for continued processing" |}]);
        events := (SqlUpdateStatus Processing :: initial_log_events b f row
                   ++ [CallProcessJob (request row);
                       SetAlarm (now (host b) + 1000)]) |}).
Proof.
  intros Hlive Huse Hcb Hflag. open_live s row b Hlive.
  subst pj. alarm_unfold. unfold settled, initial_log_events. proj_simpl.
  destruct stt; try discriminate;
    (destruct lf as [lf|]; proj_simpl;
     [destruct (String.eqb lf ""); proj_simpl |]);
    subst; cbn; rewrite Hflag; try injection Huse as <-; reflexivity.
Qed.

Lemma quiet_initial_log_events b f row : Forall quiet (initial_log_events b f row).
Proof. unfold initial_log_events. destruct (truthy _); repeat constructor. Qed.

(** C7 (amended). On the continue outcome the alarm returns with the next
    alarm set at [Date.now() + 1000], status processing, and request,
    config, log_id, created_at and error as they were; log_file_id is as it
    was when it was already set, and is the id [writeKladosLog] returned in
    this invocation otherwise; no handoff is made and the log is not
    finalized. *)
Theorem continue_outcome_frame (b : Behaviour) (s : DOState) (row : JobRow)
    (f : string) (result : ProcessResult) :
  live s row →
  log_file_in_use b row = Returns f →
  processJob b = Returns result →
  truthy_flag (reschedule result) = true →
  let r := alarm b (start_run s) in
  r.1 = Returns ()
  ∧ scheduled_alarm (st r.2) = Some (now (host b) + 1000)
  ∧ (∃ row', job_state (st r.2) = Some row'
       ∧ status row' = Processing
       ∧ request row' = request row ∧ config row' = config row
       ∧ log_id row' = log_id row ∧ created_at row' = created_at row
       ∧ error row' = error row
       ∧ log_file_id row'
         = if truthy (log_file_id row) then log_file_id row else Some f)
  ∧ Forall quiet (events r.2).
Proof.
  intros Hlive Huse Hcb Hflag r. subst r.
  rewrite (alarm_continue b s row f result Hlive Huse Hcb Hflag).
  cbn [fst snd st events scheduled_alarm job_state].
  split; [reflexivity |]. split; [reflexivity |]. split.
  - exists (settled f (with_status Processing row)). unfold settled.
    cbn [with_status log_file_id]. destruct (truthy (log_file_id row)); by cbn.
  - constructor; [by split |]. apply Forall_app. split.
    + apply quiet_initial_log_events.
    + repeat constructor.
Qed.

(** C10. When the callback returns [reschedule = true] together with
    outputs, the alarm does exactly what it does for the same result without
    outputs: it sets the next alarm and returns, the status stays
    processing, and there is no handoff call, no log finalization and no
    transition to done. *)
Theorem reschedule_takes_precedence (b : Behaviour) (s : DOState)
    (row : JobRow) (f : string) (outs : list Output) :
  live s row →
  log_file_in_use b row = Returns f →
  processJob b = Returns {| outputs := Some outs; reschedule := Some true |} →
  let r := alarm b (start_run s) in
  r = alarm (with_processJob
               (Returns {| outputs := None; reschedule := Some true |}) b)
            (start_run s)
  ∧ r.1 = Returns ()
  ∧ scheduled_alarm (st r.2) = Some (now (host b) + 1000)
  ∧ (∃ row', job_state (st r.2) = Some row' ∧ status row' = Processing)
  ∧ Forall quiet (events r.2).
Proof.
  intros Hlive Huse Hcb r. subst r.
  rewrite (alarm_continue b s row f _ Hlive Huse Hcb eq_refl).
  rewrite (alarm_continue
             (with_processJob
                (Returns {| outputs := None; reschedule := Some true |}) b)
             s row f _ Hlive Huse eq_refl eq_refl).
  cbn [fst snd st events scheduled_alarm job_state].
  split; [reflexivity |]. split; [reflexivity |]. split; [reflexivity |]. split.
  - exists (settled f (with_status Processing row)). unfold settled.
    destruct (truthy _); by cbn.
  - constructor; [by split |]. apply Forall_app. split.
    + apply quiet_initial_log_events.
    + repeat constructor.
Qed.

(** Where one alarm leaves a live job, for every behaviour of the
    collaborators: the payloads and identifiers are kept, and the row is
    either failed with a message, or processing or done with the error
    column untouched. *)
Lemma alarm_row_cases b s row :
  live s row →
  ∃ row', job_state (st (alarm b (start_run s)).2) = Some row'
    ∧ request row' = request row ∧ config row' = config row
    ∧ log_id row' = log_id row ∧ created_at row' = created_at row
    ∧ ((status row' = Failed ∧ ∃ m, error row' = Some m)
       ∨ ((status row' = Processing ∨ status row' = Done)
          ∧ error row' = error row)).
Proof.
  intros Hlive. open_live s row b Hlive. alarm_unfold. cbn [status].
  destruct stt; try discriminate;
    repeat (first [fold_handoff | break_match]; run_monad; cbn [fst snd]);
    cbn; (eexists; split; [reflexivity |]); cbn; repeat split; eauto 6.
Qed.

(** ** The error column *)

Lemma step_consistent op s : consistent s → consistent (step op s).
Proof.
  intros Hcons. destruct (job_state s) as [row|] eqn:Hrow.
  - destruct (is_terminal (status row)) eqn:Hterm.
    + unfold step. rewrite perform_terminal by (exists row; auto). exact Hcons.
    + destruct op as [h b | | b]; unfold step, perform.
      * unfold fetch. cbn [String.eqb Ascii.eqb Bool.eqb].
        by rewrite (handleStart_existing _ _ _ _ Hrow).
      * destruct s as [[row'|] slot]; [exact Hcons | discriminate].
      * destruct (alarm_row_cases b s row (conj Hrow Hterm))
          as (row' & Hrow' & _ & _ & _ & _ & Hcases).
        intros row'' Hrow''. rewrite Hrow' in Hrow''. injection Hrow'' as <-.
        assert (error row = None) as Hnone.
        { destruct (error row) eqn:Herr; [| done].
          assert (status row = Failed) as Hs by (apply Hcons; [done | congruence]).
          by rewrite Hs in Hterm. }
        destruct Hcases as [(Hs & m & Hm) | (Hs & He)].
        -- rewrite Hs, Hm. done.
        -- rewrite He, Hnone. split; [done |]. destruct Hs as [-> | ->]; done.
  - destruct op as [h b | | b]; unfold step, perform.
    + unfold fetch. cbn [String.eqb Ascii.eqb Bool.eqb].
      by rewrite (handleStart_empty _ _ _ Hrow).
    + destruct s as [[row'|] slot]; [discriminate | exact Hcons].
    + destruct s as [[row'|] slot]; [discriminate | exact Hcons].
Qed.

Lemma final_state_consistent ops s : consistent s → consistent (final_state ops s).
Proof.
  revert s. induction ops as [| op ops IH]; intros s Hcons; [exact Hcons |].
  unfold final_state in *. cbn [foldl]. by apply IH, step_consistent.
Qed.

(** C8. In every state reached by start requests, status queries and alarm
    firings (whatever the collaborators do), the error column is non-null
    exactly when the status is error.  The sequence may start from a new
    object, whose table is empty, from the row as the INSERT of
    [handleStart] writes it, or from any state in which this already holds. *)
Theorem error_set_iff_status_error (s0 : DOState) (ops : list Op) (row : JobRow) :
  (job_state s0 = None
   ∨ (∃ row0, job_state s0 = Some row0
              ∧ status row0 = Accepted ∧ error row0 = None)
   ∨ consistent s0) →
  job_state (final_state ops s0) = Some row →
  (error row ≠ None ↔ status row = Failed).
Proof.
  intros Hstart. apply final_state_consistent.
  destruct Hstart as [Hnone | [(row0 & Hrow0 & Hst & Herr) | Hcons]]; [| | done].
  - intros row'. rewrite Hnone. discriminate.
  - intros row'. rewrite Hrow0. intros [= <-]. rewrite Hst, Herr. done.
Qed.

(** ** What an alarm leaves behind *)

(** The handoff block throws exactly what [handoff_failure] reads off the
    collaborators. *)
Lemma handoff_outcome b req f res r :
  (handoff b req f res r).1
  = match handoff_failure b req res with
    | Some e => Throws e
    | None => Returns ()
    end.
Proof.
  unfold handoff, handoff_failure, continuation. run_monad.
  repeat (break_match; run_monad; cbn [fst snd] in *; try discriminate;
          try congruence);
    try reflexivity;
    repeat match goal with H : Some _ = Some _ |- _ => injection H as <- end;
    try reflexivity; by repeat match goal with u : () |- _ => destruct u end.
Qed.

Ltac fold_handoff_outcome :=
  match goal with
  | |- context [handoff ?b ?q ?f ?res ?r] =>
      let Hout := fresh "Hout" in
      pose proof (handoff_outcome b q f res r) as Hout;
      pose proof (handoff_frame b q f res r) as (? & ? & ? & ?);
      destruct (handoff_failure b q res) eqn:?;
      destruct (handoff b q f res r) as [? [? ? ?]];
      cbn [fst snd st events logger] in *; subst
  end.

(** C4 (amended). Whatever [writeKladosLog], the callback, the entity GET,
    [interpretThen], [updateLogWithHandoffs] and [updateLogStatus] do,
    throwing included, and provided [failKlados] returns when the catch
    block calls it, the alarm returns without an exception and a status is
    persisted: a terminal job is left as it is; a live job on which
    anything fails (the initial log write, the callback, the rhiza fetch,
    the interpreter, the append of the handoff record or the finalization
    of the log) ends error with the message of the first failure; a live job
    on which nothing fails ends processing with the next alarm set when
    the callback asked to continue, and done otherwise. *)
Theorem alarm_returns_with_a_status (b : Behaviour) (s : DOState) (row : JobRow) :
  job_state s = Some row →
  (truthy (log_file_id row) = true → failKlados b = Returns ()) →
  let r := alarm b (start_run s) in
  r.1 = Returns ()
  ∧ ∃ row', job_state (st r.2) = Some row'
      ∧ (is_terminal (status row) = true → row' = row)
      ∧ (is_terminal (status row) = false →
           match first_failure b row with
           | Some e =>
               status row' = Failed ∧ error row' = Some (error_message e)
           | None =>
               error row' = error row
               ∧ ∃ f result,
                   log_file_in_use b row = Returns f
                   ∧ processJob b = Returns result
                   ∧ if truthy_flag (reschedule result)
                     then status row' = Processing
                          ∧ scheduled_alarm (st r.2)
                            = Some (now (host b) + 1000)
                     else status row' = Done
                          ∧ handoff_failure b (request row) result = None
                          ∧ updateLogStatus b = Returns ()
           end).
Proof.
  intros Hrow Hfail r. subst r.
  destruct (is_terminal (status row)) eqn:Hterm.
  - rewrite alarm_terminal by (exists row; auto).
    split; [reflexivity |]. exists row. cbn. repeat split; [done | discriminate].
  - pose proof (conj Hrow Hterm : live s row) as Hlive. clear Hrow Hterm.
    open_live s row b Hlive. unfold first_failure. alarm_unfold.
    destruct stt; try discriminate;
      (destruct lf as [lf|]; proj_simpl;
       [destruct (String.eqb lf ""); proj_simpl;
        try rewrite Hfail by reflexivity |]);
      repeat (first [fold_handoff_outcome | break_match]; run_monad; proj_simpl;
              try discriminate);
      cbn [fst snd st job_state scheduled_alarm];
      (split; [reflexivity |]); (eexists; split; [reflexivity |]);
      (split; [discriminate |]); intros _; cbn [status error];
      first [ by split
            | split; [reflexivity |]; eexists _, _;
              split; [reflexivity |]; split; [reflexivity |];
              match goal with H : truthy_flag _ = _ |- _ => rewrite H end;
              repeat split; try reflexivity; try assumption;
              by repeat match goal with u : () |- _ => destruct u end ].
Qed.

(** ** Failures and the log record *)

Lemma count_events_app p l1 l2 :
  count_events p (l1 ++ l2) = (count_events p l1 + count_events p l2)%nat.
Proof. unfold count_events. by rewrite List.filter_app, length_app. Qed.

Lemma count_events_cons p e l :
  count_events p (e :: l) = ((if p e then 1 else 0) + count_events p l)%nat.
Proof. unfold count_events. cbn. by destruct (p e). Qed.

Lemma count_events_handoff p evs :
  (∀ e, is_handoff_call e = true → p e = false) →
  Forall (λ e, is_handoff_call e = true) evs →
  count_events p evs = 0%nat.
Proof.
  intros Hp Hall. induction Hall as [| e evs He _ IH]; [reflexivity |].
  unfold count_events in *. cbn. by rewrite (Hp e He).
Qed.

(** On a resumption that found no log file id in the row the failure
    finalizer is never called, whatever fails and whatever was written in
    the meantime. *)
Lemma no_failKlados_without_stored_log b s row :
  live s row →
  truthy (log_file_id row) = false →
  count_events is_fail_klados (events (alarm b (start_run s)).2) = 0%nat.
Proof.
  intros Hlive Hfalsy. open_live s row b Hlive. alarm_unfold.
  destruct stt; try discriminate;
    (destruct lf as [lf|]; proj_simpl; try rewrite Hfalsy);
    repeat (first [fold_handoff | break_match]; run_monad; proj_simpl;
            try discriminate);
    cbn [fst snd events];
    rewrite ?count_events_app, ?count_events_cons, ?count_events_app;
    rewrite ?(count_events_handoff is_fail_klados) by (done || by intros []);
    reflexivity.
Qed.


(** A failure of the callback on a resumption that found the log record
    already stored: the failure finalizer is called on that record, with the
    error, before the row is updated. *)
Lemma resumed_failure_calls_failKlados b s row f e :
  live s row →
  log_file_id row = Some f → truthy (Some f) = true →
  processJob b = Throws e →
  failKlados b = Returns () →
  events (alarm b (start_run s)).2
  = [SqlUpdateStatus Processing; CallProcessJob (request row);
     CallFailKlados f (rhiza (request row) ≫= batch) e
       (processJob_logs b ++ [{| level := ErrorLevel; text := "Job failed" |}]);
     SqlUpdateError (error_message e)].
Proof.
  intros Hlive Hlf Htruthy Hcb Hfail. open_live s row b Hlive.
  subst. alarm_unfold. cbn [status]. rewrite Htruthy.
  destruct stt; try discriminate; reflexivity.
Qed.

(** A failure of [writeKladosLog] itself: no log record exists, the failure
    finalizer is not called and the message goes to the row. *)
Lemma failure_without_log_record b s row e :
  live s row →
  truthy (log_file_id row) = false →
  writeKladosLog b = Throws e →
  count_events is_fail_klados (events (alarm b (start_run s)).2) = 0%nat
  ∧ ∃ row', job_state (st (alarm b (start_run s)).2) = Some row'
            ∧ status row' = Failed ∧ error row' = Some (error_message e).
Proof.
  intros Hlive Hfalsy Hwl. open_live s row b Hlive.
  subst. alarm_unfold.
  destruct stt; try discriminate; destruct lf as [lf|]; proj_simpl;
    try rewrite Hfalsy; cbn; eauto.
Qed.

(** C1 (the code departs from it). The log record is written in this very
    invocation ([writeKladosLog] returns [f]) and the callback then throws:
    the catch block tests the [log_file_id] of the row as it was loaded, which is
    still falsy, so the failure finalizer is not called although the record
    [f] exists; the failure reaches only the row. *)
Theorem failure_after_fresh_log_skips_failKlados (b : Behaviour) (s : DOState)
    (row : JobRow) (f : string) (e : Thrown) :
  live s row →
  truthy (log_file_id row) = false →
  writeKladosLog b = Returns f →
  processJob b = Throws e →
  let r := alarm b (start_run s) in
  count_events is_write_log (events r.2) = 1%nat
  ∧ count_events is_fail_klados (events r.2) = 0%nat
  ∧ ∃ row', job_state (st r.2) = Some row'
            ∧ log_file_id row' = Some f
            ∧ status row' = Failed ∧ error row' = Some (error_message e).
Proof.
  intros Hlive Hfalsy Hwl Hcb r. subst r. open_live s row b Hlive.
  subst. alarm_unfold.
  destruct stt; try discriminate; destruct lf as [lf|]; proj_simpl;
    try rewrite Hfalsy; cbn; eauto 10.
Qed.

(** ** The continue loop *)

(** The whole run of an alarm on which the callback returns its outputs and
    every later collaborator answers. *)
Lemma alarm_success b s row f result :
  live s row →
  log_file_in_use b row = Returns f →
  processJob b = Returns result →
  truthy_flag (reschedule result) = false →
  flow_answers b →
  updateLogStatus b = Returns () →
  ∃ handoffs messages,
    Forall (λ e, is_handoff_call e = true) handoffs
    ∧ (alarm b (start_run s)).1 = Returns ()
    ∧ st (alarm b (start_run s)).2
      = {| job_state :=
             Some (with_status Done (settled f (with_status Processing row)));
           scheduled_alarm := scheduled_alarm s |}
    ∧ events (alarm b (start_run s)).2
      = (SqlUpdateStatus Processing :: initial_log_events b f row
         ++ [CallProcessJob (request row)] ++ handoffs
         ++ [CallUpdateLogStatus f "done" messages; SqlUpdateStatus Done]).
Proof.
  intros Hlive Huse Hcb Hflag Hflow Hfin. open_live s row b Hlive.
  subst pj uls. alarm_unfold. unfold settled, initial_log_events. proj_simpl.
  destruct stt; try discriminate;
    (destruct lf as [lf|]; proj_simpl;
     [destruct (String.eqb lf ""); proj_simpl |]);
    subst; cbn [fst snd]; rewrite Hflag; try injection Huse as <-;
    match goal with
    | |- context [handoff ?b ?q ?f ?res ?r] =>
        pose proof (handoff_returns b q f res r Hflow) as Hret;
        pose proof (handoff_frame b q f res r) as (Hst & evs & Hev & Hall);
        destruct (handoff b q f res r) as [o [st' lg' ev']];
        cbn [fst snd st events] in Hret, Hst, Hev; subst
    end;
    exists evs; eexists; (split; [exact Hall |]); cbn;
    rewrite <- ?app_assoc; repeat split; reflexivity.
Qed.

Lemma truthy_Some f : f ≠ "" → truthy (Some f) = true.
Proof. intros Hne. cbn. by apply negb_true_iff, String.eqb_neq. Qed.

(** Once the stored file id is set (and truthy), no operation changes it. *)
Lemma log_file_id_is_kept op s f :
  f ≠ "" → has_log_file f s → has_log_file f (step op s).
Proof.
  intros Hne (row & Hrow & Hlf).
  destruct (is_terminal (status row)) eqn:Hterm.
  { unfold step. rewrite perform_terminal by (exists row; auto). by exists row. }
  destruct op as [h b | | b]; unfold step, perform.
  - unfold fetch. cbn [String.eqb Ascii.eqb Bool.eqb].
    rewrite (handleStart_existing _ _ _ _ Hrow). by exists row.
  - destruct s as [[row'|] slot]; [by exists row | discriminate].
  - pose proof (truthy_Some f Hne) as Htruthy.
    pose proof (conj Hrow Hterm : live s row) as Hlive. clear Hrow Hterm.
    open_live s row b Hlive. subst lf. alarm_unfold. rewrite Htruthy.
    unfold has_log_file. proj_simpl.
    destruct stt; try discriminate;
      repeat (first [fold_handoff | break_match]; run_monad; proj_simpl;
              try discriminate);
      cbn; eexists; split; reflexivity.
Qed.

Lemma count_initial_log_events b f row :
  count_events is_write_log (initial_log_events b f row)
  = (if truthy (log_file_id row) then 0 else 1)%nat
  ∧ count_events is_log_file_update (initial_log_events b f row)
    = (if truthy (log_file_id row) then 0 else 1)%nat
  ∧ count_events is_done_transition (initial_log_events b f row) = 0%nat
  ∧ count_events is_callback (initial_log_events b f row) = 0%nat.
Proof. unfold initial_log_events. by destruct (truthy _). Qed.

Lemma continue_step b s row f :
  live s row → log_file_in_use b row = Returns f → continues b →
  step (Alarm b) s
  = {| job_state := Some (settled f (with_status Processing row));
       scheduled_alarm := Some (now (host b) + 1000) |}
  ∧ count_events is_write_log (effects (Alarm b) s)
    = (if truthy (log_file_id row) then 0 else 1)%nat
  ∧ count_events is_log_file_update (effects (Alarm b) s)
    = (if truthy (log_file_id row) then 0 else 1)%nat
  ∧ count_events is_done_transition (effects (Alarm b) s) = 0%nat
  ∧ count_events is_callback (effects (Alarm b) s) = 1%nat.
Proof.
  intros Hlive Huse (result & Hcb & Hflag).
  unfold step, effects, perform.
  rewrite (alarm_continue b s row f result Hlive Huse Hcb Hflag).
  cbn [snd st events]. split; [reflexivity |].
  destruct (count_initial_log_events b f row) as (Hw & Hu & Hd & Hc).
  rewrite !count_events_cons, !count_events_app, Hw, Hu, Hd, Hc.
  cbn. repeat split; lia.
Qed.

Lemma success_step b s row f :
  live s row → log_file_in_use b row = Returns f → succeeds b →
  step (Alarm b) s
  = {| job_state :=
         Some (with_status Done (settled f (with_status Processing row)));
       scheduled_alarm := scheduled_alarm s |}
  ∧ count_events is_write_log (effects (Alarm b) s)
    = (if truthy (log_file_id row) then 0 else 1)%nat
  ∧ count_events is_log_file_update (effects (Alarm b) s)
    = (if truthy (log_file_id row) then 0 else 1)%nat
  ∧ count_events is_done_transition (effects (Alarm b) s) = 1%nat
  ∧ count_events is_callback (effects (Alarm b) s) = 1%nat.
Proof.
  intros Hlive Huse ((result & Hcb & Hflag) & Hflow & Hfin).
  destruct (alarm_success b s row f result Hlive Huse Hcb Hflag Hflow Hfin)
    as (handoffs & messages & Hall & _ & Hst & Hev).
  unfold step, effects, perform. rewrite Hst, Hev. split; [reflexivity |].
  destruct (count_initial_log_events b f row) as (Hw & Hu & Hd & Hc).
  rewrite !count_events_cons, !count_events_app, Hw, Hu, Hd, Hc.
  rewrite !(count_events_handoff _ handoffs) by (done || by intros []).
  cbn. repeat split; lia.
Qed.

Lemma log_file_in_use_stored b row f :
  log_file_id row = Some f → f ≠ "" → log_file_in_use b row = Returns f.
Proof.
  intros Hlf Hne. unfold log_file_in_use. by rewrite Hlf, (truthy_Some f Hne).
Qed.

Lemma settled_stored f row :
  log_file_id row = Some f → f ≠ "" →
  settled f (with_status Processing row) = with_status Processing row.
Proof.
  intros Hlf Hne. unfold settled. cbn [with_status log_file_id].
  by rewrite Hlf, (truthy_Some f Hne).
Qed.

(** Resumptions of a job whose log record is already stored: the callback
    continues on each of [bs] and succeeds on [b_last]. *)
Lemma resumed_loop (f : string) (b_last : Behaviour) (bs : list Behaviour) :
  f ≠ "" → succeeds b_last → Forall continues bs →
  ∀ s row, live s row → log_file_id row = Some f →
  let ops := Alarm <$> (bs ++ [b_last]) in
  count_events is_write_log (trace_of ops s) = 0%nat
  ∧ count_events is_log_file_update (trace_of ops s) = 0%nat
  ∧ count_events is_done_transition (trace_of ops s) = 1%nat
  ∧ count_events is_callback (trace_of ops s) = S (length bs)
  ∧ Forall (has_log_file f) (states_of ops s)
  ∧ ∃ row', job_state (final_state ops s) = Some row' ∧ status row' = Done.
Proof.
  intros Hne Hlast Hconts. induction Hconts as [| b bs Hb _ IH];
    intros s row Hlive Hlf; cbn [app fmap list_fmap trace_of states_of].
  - destruct (success_step b_last s row f Hlive
                (log_file_in_use_stored _ _ _ Hlf Hne) Hlast)
      as (Hst & Hw & Hu & Hd & Hc).
    rewrite Hlf, (truthy_Some f Hne) in Hw, Hu.
    rewrite settled_stored in Hst by done.
    rewrite app_nil_r, Hw, Hu, Hd, Hc. unfold final_state. cbn [foldl]. rewrite Hst.
    repeat split; [| by eauto].
    constructor; [| constructor]. eexists. split; [reflexivity |]. exact Hlf.
  - destruct (continue_step b s row f Hlive
                (log_file_in_use_stored _ _ _ Hlf Hne) Hb)
      as (Hst & Hw & Hu & Hd & Hc).
    rewrite Hlf, (truthy_Some f Hne) in Hw, Hu.
    rewrite settled_stored in Hst by done.
    destruct (IH (step (Alarm b) s) (with_status Processing row))
      as (IHw & IHu & IHd & IHc & IHs & IHf).
    { rewrite Hst. by split. }
    { exact Hlf. }
    rewrite !count_events_app, Hw, Hu, Hd, Hc, IHw, IHu, IHd, IHc.
    unfold final_state in *. cbn [foldl length]. repeat split; [| exact IHf].
    constructor; [| exact IHs].
    rewrite Hst. eexists. split; [reflexivity |]. exact Hlf.
Qed.

(** C5 (amended). A job just started (live, no log file yet) whose callback
    continues on [bs] (N resumptions) and then succeeds on [b_last], with
    [writeKladosLog] answering a non-empty file id on the first resumption and the
    flow and log collaborators answering on the last one: over the N+1
    alarms the callback runs N+1 times, [writeKladosLog] is called exactly
    once and [log_file_id] written exactly once, the status is set to done
    exactly once and ends done, and after every resumption the row holds
    the same log file id. *)
Theorem continue_loop_writes_log_once (bs : list Behaviour)
    (b_last : Behaviour) (s : DOState) (row : JobRow) :
  live s row →
  log_file_id row = None →
  Forall continues bs →
  succeeds b_last →
  log_written (first_resumption bs b_last) →
  let ops := Alarm <$> (bs ++ [b_last]) in
  count_events is_callback (trace_of ops s) = S (length bs)
  ∧ count_events is_write_log (trace_of ops s) = 1%nat
  ∧ count_events is_log_file_update (trace_of ops s) = 1%nat
  ∧ count_events is_done_transition (trace_of ops s) = 1%nat
  ∧ (∃ f, Forall (has_log_file f) (states_of ops s))
  ∧ ∃ row', job_state (final_state ops s) = Some row' ∧ status row' = Done.
Proof.
  intros Hlive Hlf Hconts Hlast (f & Hwl & Hne).
  assert (∀ b, log_file_in_use b row = writeKladosLog b) as Huse.
  { intros b. unfold log_file_in_use. by rewrite Hlf. }
  destruct Hconts as [| b bs Hb Hconts];
    cbn [first_resumption head default from_option] in Hwl;
    cbn [app fmap list_fmap trace_of states_of].
  - rewrite <- Huse in Hwl.
    destruct (success_step b_last s row f Hlive Hwl Hlast)
      as (Hst & Hw & Hu & Hd & Hc).
    rewrite Hlf in Hw, Hu. cbn [truthy] in Hw, Hu.
    rewrite app_nil_r, Hw, Hu, Hd, Hc. unfold final_state. cbn [foldl]. rewrite Hst.
    repeat split; [| by eauto].
    exists f. constructor; [| constructor].
    eexists. split; [reflexivity |]. unfold settled. cbn. by rewrite Hlf.
  - rewrite <- Huse in Hwl.
    destruct (continue_step b s row f Hlive Hwl Hb)
      as (Hst & Hw & Hu & Hd & Hc).
    rewrite Hlf in Hw, Hu. cbn [truthy] in Hw, Hu.
    assert (settled f (with_status Processing row)
            = with_log_file_id f (with_status Processing row)) as Hset.
    { unfold settled. cbn. by rewrite Hlf. }
    rewrite Hset in Hst.
    destruct (resumed_loop f b_last bs Hne Hlast Hconts (step (Alarm b) s)
                (with_log_file_id f (with_status Processing row)))
      as (IHw & IHu & IHd & IHc & IHs & IHf).
    { rewrite Hst. by split. }
    { reflexivity. }
    rewrite !count_events_app, Hw, Hu, Hd, Hc, IHw, IHu, IHd, IHc.
    unfold final_state in *. cbn [foldl length]. repeat split; [| exact IHf].
    exists f. constructor; [| exact IHs].
    rewrite Hst. eexists. split; reflexivity.
Qed.

(** ** Instances *)

Example resumed_is_reached : step (Alarm continuing) started = resumed.
Proof. reflexivity. Qed.

Example finished_is_reached : step (Alarm answering) resumed = finished.
Proof. reflexivity. Qed.

(** A job outside any workflow: the log is finalized, nothing is handed off. *)
Example simple_success :
  effects (Alarm answering) resumed
  = [SqlUpdateStatus Processing; CallProcessJob sample_request;
     CallUpdateLogStatus "file_1" "done"
       [{| level := Info; text := "Starting job processing" |};
        {| level := Success; text := "Job completed" |}];
     SqlUpdateStatus Done].
Proof. reflexivity. Qed.

(** A job inside a workflow: the interpreter is called once with the two
    outputs, and the handoff record is appended to the log before the status
    becomes done. *)
Example workflow_handoff :
  drop 3 (effects (Alarm handing_off) workflow_started)
  = [CallProcessJob workflow_request;
     CallGetEntity "rhiza_1";
     CallInterpretThen {| directive := "pass stepB" |} ["o1"; "o2"] "file_2";
     CallUpdateLogWithHandoffs "file_2" [{| record_text := "to stepB" |}];
     CallUpdateLogStatus "file_2" "done"
       [{| level := Info; text := "Handoff: pass" |};
        {| level := Success; text := "Job completed" |}];
     SqlUpdateStatus Done].
Proof. vm_compute. reflexivity. Qed.

Lemma first_start_throws_on_empty_table_witness :
  let first := handleStart sample_host sample_body (start_run fresh) in
  let second := handleStart later_host other_body (start_run (st first.2)) in
  first.1 = Throws no_results
  ∧ st first.2 = fresh ∧ events first.2 = []
  ∧ second.1 = Throws no_results
  ∧ st second.2 = fresh ∧ events second.2 = [].
Proof.
  apply (first_start_throws_on_empty_table sample_host later_host sample_body
           other_body fresh). reflexivity.
Defined.

Lemma status_query_throws_on_empty_table_witness :
  handleStatus (start_run started)
  = (Returns (Response_json [("status", JStr "accepted"); ("error", JNull)] 200),
     start_run started)
  ∧ handleStatus (start_run fresh) = (Throws no_results, start_run fresh).
Proof.
  split.
  - exact (proj1 (status_query_throws_on_empty_table started) started_row eq_refl).
  - exact (proj2 (status_query_throws_on_empty_table fresh) eq_refl).
Defined.

Lemma terminal_states_are_absorbing_witness :
  final_state [Alarm answering; Start later_host other_body; Status;
               Alarm callback_throws] finished = finished
  ∧ trace_of [Alarm answering; Start later_host other_body; Status;
              Alarm callback_throws] finished = [].
Proof.
  destruct (terminal_states_are_absorbing finished
              [Alarm answering; Start later_host other_body; Status;
               Alarm callback_throws]) as (Hfinal & _ & Htrace).
  - exists (with_status Done resumed_row). split; reflexivity.
  - split; [exact Hfinal | exact Htrace].
Defined.

Lemma callback_failure_is_recorded_witness :
  (alarm callback_throws (start_run resumed)).1 = Returns ()
  ∧ ∃ row', job_state (st (alarm callback_throws (start_run resumed)).2) = Some row'
            ∧ status row' = Failed ∧ error row' = Some "X".
Proof.
  apply (callback_failure_is_recorded callback_throws resumed resumed_row
           "file_1" "X"); [split | | |]; reflexivity.
Defined.

Lemma continue_outcome_frame_witness :
  ∃ row', job_state (st (alarm continuing (start_run started)).2) = Some row'
          ∧ status row' = Processing
          ∧ request row' = sample_request
          ∧ log_file_id row' = Some "file_1".
Proof.
  destruct (continue_outcome_frame continuing started started_row "file_1"
              {| outputs := None; reschedule := Some true |})
    as (_ & _ & (row' & Hrow & Hst & Hreq & _ & _ & _ & _ & Hlf) & _);
    [split; reflexivity | reflexivity | reflexivity | reflexivity |].
  exists row'. repeat split; assumption.
Defined.

Lemma reschedule_takes_precedence_witness :
  alarm continuing_with_outputs (start_run started)
  = alarm continuing (start_run started)
  ∧ scheduled_alarm (st (alarm continuing_with_outputs (start_run started)).2)
    = Some 1735689606000.
Proof.
  destruct (reschedule_takes_precedence continuing_with_outputs started
              started_row "file_1" ["o1"])
    as (Hsame & _ & Hslot & _);
    [split; reflexivity | reflexivity | reflexivity |].
  split; [exact Hsame | exact Hslot].
Defined.

Lemma error_set_iff_status_error_witness :
  ∃ row, job_state (final_state [Alarm callback_throws; Status] started) = Some row
         ∧ status row = Failed
         ∧ (error row ≠ None ↔ status row = Failed).
Proof.
  eexists. split; [reflexivity |]. split; [reflexivity |].
  apply (error_set_iff_status_error started [Alarm callback_throws; Status]);
    [| reflexivity].
  right. left. exists started_row. by repeat split.
Defined.

Lemma alarm_returns_with_a_status_witness :
  (alarm answering (start_run resumed)).1 = Returns ().
Proof.
  refine (proj1 (alarm_returns_with_a_status answering resumed resumed_row _ _));
    reflexivity.
Defined.

Lemma failure_after_fresh_log_skips_failKlados_witness :
  let r := alarm callback_throws (start_run started) in
  count_events is_write_log (events r.2) = 1%nat
  ∧ count_events is_fail_klados (events r.2) = 0%nat
  ∧ ∃ row', job_state (st r.2) = Some row'
            ∧ log_file_id row' = Some "file_1"
            ∧ status row' = Failed ∧ error row' = Some "X".
Proof.
  apply (failure_after_fresh_log_skips_failKlados callback_throws started
           started_row "file_1" (JsError "X")); [split | | |]; reflexivity.
Defined.

Lemma continue_loop_writes_log_once_witness :
  let ops := Alarm <$> [continuing; continuing; answering] in
  count_events is_callback (trace_of ops started) = 3%nat
  ∧ count_events is_write_log (trace_of ops started) = 1%nat
  ∧ count_events is_log_file_update (trace_of ops started) = 1%nat
  ∧ count_events is_done_transition (trace_of ops started) = 1%nat
  ∧ (∃ f, Forall (has_log_file f) (states_of ops started))
  ∧ ∃ row', job_state (final_state ops started) = Some row' ∧ status row' = Done.
Proof.
  apply (continue_loop_writes_log_once [continuing; continuing] answering
           started started_row).
  - split; reflexivity.
  - reflexivity.
  - repeat constructor; eexists; split; reflexivity.
  - split; [eexists; split; reflexivity |].
    split; [| reflexivity].
    split; [eexists; reflexivity |]. split; [eexists; reflexivity | reflexivity].
  - exists "file_1". split; [reflexivity | discriminate].
Defined.

(** C7, as first stated, fails on the first resumption: the row had no log
    file id when the alarm fired, the callback was invoked and asked to
    continue, and the alarm returns with [log_file_id] set. *)
Lemma continue_on_first_resumption_sets_log_file_id :
  live started started_row
  ∧ log_file_id started_row = None
  ∧ events (alarm continuing (start_run started)).2
    = [SqlUpdateStatus Processing;
       CallWriteKladosLog
         (initial_log_entry sample_request sample_config "log_01J"
            "2025-01-01T00:00:05.000Z") [];
       SqlUpdateLogFileId "file_1";
       CallProcessJob sample_request;
       SetAlarm 1735689606000]
  ∧ ∃ row', job_state (st (alarm continuing (start_run started)).2) = Some row'
            ∧ status row' = Processing
            ∧ log_file_id row' = Some "file_1"
            ∧ log_file_id row' ≠ log_file_id started_row.
Proof.
  split; [by split |]. split; [reflexivity |]. split; [reflexivity |].
  eexists. split; [reflexivity |]. repeat split. discriminate.
Qed.

(** C4, as first stated, fails when the failure finalizer throws: on a
    resumed job (log file stored) whose callback throws, the exception of
    [failKlados] leaves the alarm handler and the row stays processing,
    with no error recorded. *)
Lemma finalizer_failure_escapes_alarm :
  step (Alarm continuing) started = resumed
  ∧ (alarm finalizer_throws (start_run resumed)).1 = Throws (JsError "Y")
  ∧ ∃ row', job_state (st (alarm finalizer_throws (start_run resumed)).2)
            = Some row'
            ∧ status row' = Processing ∧ error row' = None.
Proof.
  split; [reflexivity |]. split; [reflexivity |].
  eexists. split; [reflexivity |]. by split.
Qed.

(** C6, as first stated, fails when the failure finalizer throws too: the
    callback of a resumed job is invoked and throws [Error("X")], and the row
    is left processing with no error, not [status = error], [error = "X"]. *)
Lemma callback_failure_unrecorded_when_finalizer_throws :
  live resumed resumed_row
  ∧ processJob finalizer_throws = Throws (JsError "X")
  ∧ events (alarm finalizer_throws (start_run resumed)).2
    = [SqlUpdateStatus Processing; CallProcessJob sample_request;
       CallFailKlados "file_1" None (JsError "X")
         [{| level := ErrorLevel; text := "Job failed" |}]]
  ∧ ∃ row', job_state (step (Alarm finalizer_throws) resumed) = Some row'
            ∧ status row' ≠ Failed ∧ error row' ≠ Some "X".
Proof.
  split; [by split |]. split; [reflexivity |]. split; [reflexivity |].
  eexists. split; [reflexivity |]. by split.
Qed.

(** C5, as first stated, fails when [writeKladosLog] answers the empty
    string: the test [!logFileId] takes the stored empty id for a missing
    one, so on a run where the callback continues once and then succeeds the
    initial log is written on both resumptions, and the stored file id,
    non-null after the first, changes on the second. *)
Lemma empty_file_id_is_written_again :
  let ops := [Alarm empty_id_continuing; Alarm second_id_answering] in
  count_events is_callback (trace_of ops started) = 2%nat
  ∧ count_events is_write_log (trace_of ops started) = 2%nat
  ∧ count_events is_done_transition (trace_of ops started) = 1%nat
  ∧ states_of ops started
    = [ {| job_state := Some (with_log_file_id "" (with_status Processing started_row));
           scheduled_alarm := Some 1735689606000 |};
        {| job_state :=
             Some (with_status Done
                     (with_log_file_id "file_2"
                        (with_status Processing started_row)));
           scheduled_alarm := Some 1735689606000 |} ].
Proof. by repeat split. Qed.

(** * Further properties of the code *)

(** ** The processing callback ([src/job.ts]) *)

Ltac run_job :=
  cbv [Job.processJob Job.bind Job.ret Job.throw Job.log Job.call Job.start
       Job.messages Job.calls] in *;
  cbn [app fst snd] in *.

(** Without a target entity in the request the callback throws at once:
    only its first message is logged and the API is not called. *)
Theorem processJob_requires_target (api : Job.Api) (request : KladosRequest) :
  truthy (target_entity request) = false →
  Job.processJob api request Job.start
  = (Throws (JsError "No target_entity in request"),
     {| Job.messages := [{| level := Info; text := "Starting job processing" |}];
        Job.calls := [] |}).
Proof. intros Hfalsy. run_job. by rewrite Hfalsy. Qed.

(** When the GET of the target resolves with an error or without data, the
    callback throws [Failed to fetch target: id] and nothing is created. *)
Theorem processJob_fetch_failure (api : Job.Api) (request : KladosRequest)
    (id : string) (resp : Job.TargetResponse) :
  target_entity request = Some id → id ≠ "" →
  Job.get_target api = Returns resp →
  Job.fetchError resp ≠ None ∨ Job.target resp = None →
  (Job.processJob api request Job.start).1
  = Throws (JsError ("Failed to fetch target: " +:+ id))
  ∧ Job.calls (Job.processJob api request Job.start).2 = [Job.GET id].
Proof.
  intros Hid Hne Hget Hbad. run_job.
  rewrite Hid, Hget. cbn [truthy default from_option].
  apply String.eqb_neq in Hne. rewrite Hne. cbn [negb].
  destruct resp as [[t|] [err|]]; cbn in *; by destruct Hbad.
Qed.

(** Whenever the callback returns, it has made exactly two API calls, the
    GET of the requested target and one POST that creates a
    [processed_output] in the request's target collection, derived from the
    fetched entity; it returns the id of the created entity as its only
    output and does not ask for another resumption. *)
Theorem processJob_result (api : Job.Api) (request : KladosRequest)
    (result : ProcessResult) (r : Job.State) :
  Job.processJob api request Job.start = (Returns result, r) →
  reschedule result = None
  ∧ ∃ id t o body,
      target_entity request = Some id
      ∧ Job.get_target api
        = Returns {| Job.target := Some t; Job.fetchError := None |}
      ∧ Job.post_output api
        = Returns {| Job.output := Some o; Job.createError := None |}
      ∧ outputs result = Some [Job.output_id o]
      ∧ Job.calls r = [Job.GET id; Job.POST body]
      ∧ Job.body_type body = "processed_output"
      ∧ Job.body_collection body = target_collection request
      ∧ Job.body_result body = Job.processEntity (Job.target_id t) t
      ∧ Job.body_source_id body = Job.target_id t
      ∧ Job.relationship_predicate body = "derived_from"
      ∧ Job.relationship_peer body = Job.target_id t
      ∧ Job.relationship_peer_type body = Job.target_type t.
Proof.
  run_job. destruct (target_entity request) as [id|]; cbn [truthy negb];
    [| discriminate].
  destruct (String.eqb id ""); cbn [negb default from_option]; [discriminate |].
  destruct (Job.get_target api) as [[[t|] [err|]]|]; try discriminate.
  cbn [Job.fetchError Job.target].
  destruct (Job.post_output api) as [[[o|] [cerr|]]|]; try discriminate.
  cbn [Job.createError Job.output]. intros [= <- <-].
  split; [reflexivity |]. eexists id, t, o, _. repeat split; reflexivity.
Qed.

(** When the POST resolves with an error or without data, the callback
    throws [Failed to create output entity: ..] with the rendered error,
    which reads [undefined] when there is no error object. *)
Theorem processJob_create_failure (api : Job.Api) (request : KladosRequest)
    (id : string) (t : Job.TargetEntity) (created : Job.CreateResponse) :
  target_entity request = Some id → id ≠ "" →
  Job.get_target api
  = Returns {| Job.target := Some t; Job.fetchError := None |} →
  Job.post_output api = Returns created →
  Job.createError created ≠ None ∨ Job.output created = None →
  (Job.processJob api request Job.start).1
  = Throws (JsError ("Failed to create output entity: "
                     +:+ Job.stringify (Job.createError created)))
  ∧ (Job.createError created = None →
     Job.stringify (Job.createError created) = "undefined").
Proof.
  intros Hid Hne Hget Hpost Hbad. split.
  - run_job. rewrite Hid, Hget, Hpost. cbn [truthy default from_option].
    apply String.eqb_neq in Hne. rewrite Hne.
    cbn [negb Job.fetchError Job.target].
    destruct created as [[o|] [cerr|]]; cbn in *; by destruct Hbad.
  - by intros ->.
Qed.

(** ** Requests to the object ([fetch], [handleStart], [handleStatus]) *)

(** Once an object holds a job, no request changes it or has any effect,
    whatever the path and the payload. *)
Theorem fetch_existing_job_is_read_only (h : Host) (pathname : string)
    (b : StartBody) (s : DOState) (row : JobRow) :
  job_state s = Some row →
  (fetch h pathname b (start_run s)).2 = start_run s.
Proof.
  intros Hrow. unfold fetch.
  destruct (String.eqb pathname "/start").
  - by rewrite (handleStart_existing _ _ _ _ Hrow).
  - destruct (String.eqb pathname "/status"); [| reflexivity].
    destruct s as [[row'|] slot]; [reflexivity | discriminate].
Qed.

(** ** What never changes, and the order of the statuses *)

Lemma step_keeps_identity op s row :
  job_state s = Some row →
  ∃ row', job_state (step op s) = Some row'
    ∧ request row' = request row ∧ config row' = config row
    ∧ log_id row' = log_id row ∧ created_at row' = created_at row
    ∧ (rank (status row) ≤ rank (status row'))%nat.
Proof.
  intros Hrow. destruct (is_terminal (status row)) eqn:Hterm.
  { unfold step. rewrite perform_terminal by (exists row; auto).
    exists row. by repeat split. }
  destruct op as [h b | | b]; unfold step, perform.
  - unfold fetch. cbn [String.eqb Ascii.eqb Bool.eqb].
    rewrite (handleStart_existing _ _ _ _ Hrow). exists row. by repeat split.
  - destruct s as [[row''|] slot]; [| discriminate].
    exists row. by repeat split.
  - destruct (alarm_row_cases b s row (conj Hrow Hterm))
      as (row' & Hrow' & Hreq & Hcfg & Hlid & Hca & Hcases).
    exists row'. repeat split; try done.
    destruct (status row); try discriminate;
      destruct Hcases as [(-> & _) | ([-> | ->] & _)]; cbn; lia.
Qed.

(** The job's identity is fixed at the first start: under any sequence of
    start requests, status queries and alarms, whatever the collaborators
    do, the row stays and its request, config, log id and creation time
    never change. *)
Theorem job_identity_is_immutable (ops : list Op) (s : DOState) (row : JobRow) :
  job_state s = Some row →
  ∃ row', job_state (final_state ops s) = Some row'
    ∧ request row' = request row ∧ config row' = config row
    ∧ log_id row' = log_id row ∧ created_at row' = created_at row.
Proof.
  revert s row. induction ops as [| op ops IH]; intros s row Hrow.
  - exists row. by repeat split.
  - destruct (step_keeps_identity op s row Hrow)
      as (row1 & Hrow1 & Hreq & Hcfg & Hlid & Hca & _).
    destruct (IH (step op s) row1 Hrow1) as (row' & Hrow' & H1 & H2 & H3 & H4).
    exists row'. unfold final_state in *. cbn [foldl].
    repeat split; [done | congruence ..].
Qed.

(** The status only moves forward in the order accepted, processing,
    done or error: no sequence of operations takes a job back to an
    earlier status. *)
Theorem status_never_goes_back (ops : list Op) (s : DOState) (row : JobRow) :
  job_state s = Some row →
  ∃ row', job_state (final_state ops s) = Some row'
    ∧ (rank (status row) ≤ rank (status row'))%nat.
Proof.
  revert s row. induction ops as [| op ops IH]; intros s row Hrow.
  - exists row. by split.
  - destruct (step_keeps_identity op s row Hrow)
      as (row1 & Hrow1 & _ & _ & _ & _ & Hle).
    destruct (IH (step op s) row1 Hrow1) as (row' & Hrow' & Hle').
    exists row'. unfold final_state in *. cbn [foldl]. split; [done | lia].
Qed.

(** ** More on one alarm *)

Ltac alarm_paths :=
  repeat (first [fold_handoff | break_match]; run_monad; proj_simpl;
          try discriminate).

Ltac count_up p :=
  cbn [fst snd events];
  rewrite ?count_events_app, ?count_events_cons, ?count_events_app;
  rewrite ?(count_events_handoff p) by (done || by intros []);
  try reflexivity.

Ltac suffix_tail :=
  first [ reflexivity
        | apply suffix_cons_r; suffix_tail
        | apply suffix_app_r; suffix_tail ].

(** The first thing an alarm does for a live job is to mark it processing. *)
Lemma alarm_live_first_event b s row :
  live s row →
  ∃ rest, events (alarm b (start_run s)).2 = SqlUpdateStatus Processing :: rest.
Proof.
  intros Hlive. open_live s row b Hlive. alarm_unfold.
  destruct stt; try discriminate; alarm_paths;
    cbn [fst snd events]; rewrite <- ?app_assoc; cbn [app]; eauto.
Qed.

(** What an alarm does first, by the state it finds: on an empty table the
    lookup [one()] throws and the handler is left with that exception, with
    no effect and the state as it was; on a done or failed job the handler
    returns, with no effect and the state as it was; on a live job the first
    effect is the update of the status to processing.  So an alarm has no
    effect at all exactly when there is no job or the job has ended. *)
Theorem alarm_by_state (b : Behaviour) (s : DOState) :
  (job_state s = None → alarm b (start_run s) = (Throws no_results, start_run s))
  ∧ (terminal s → alarm b (start_run s) = (Returns (), start_run s))
  ∧ (∀ row, live s row →
       ∃ rest, effects (Alarm b) s = SqlUpdateStatus Processing :: rest)
  ∧ (effects (Alarm b) s = [] ↔ job_state s = None ∨ terminal s).
Proof.
  assert (job_state s = None →
          alarm b (start_run s) = (Throws no_results, start_run s)) as Hempty.
  { destruct s as [[row|] slot]; [discriminate | reflexivity]. }
  split; [exact Hempty |]. split; [apply alarm_terminal |].
  split; [intros row Hlive; exact (alarm_live_first_event b s row Hlive) |].
  split.
  - intros Hnil. destruct (job_state s) as [row|] eqn:Hrow; [| by left].
    destruct (is_terminal (status row)) eqn:Hterm; [right; by exists row |].
    destruct (alarm_live_first_event b s row (conj Hrow Hterm)) as (rest & Hev).
    unfold effects, perform in Hnil. congruence.
  - unfold effects, perform. intros [Hnone | Hterm].
    + by rewrite (Hempty Hnone).
    + by rewrite alarm_terminal.
Qed.

(** When the initial log cannot be written the callback is not run: the job
    fails with the message of that error, and the failure finalizer is not
    called since there is no log record. *)
Theorem callback_needs_initial_log (b : Behaviour) (s : DOState) (row : JobRow)
    (e : Thrown) :
  live s row →
  truthy (log_file_id row) = false →
  writeKladosLog b = Throws e →
  let r := alarm b (start_run s) in
  r.1 = Returns ()
  ∧ count_events is_callback (events r.2) = 0%nat
  ∧ count_events is_fail_klados (events r.2) = 0%nat
  ∧ ∃ row', job_state (st r.2) = Some row'
            ∧ status row' = Failed ∧ error row' = Some (error_message e)
            ∧ log_file_id row' = log_file_id row.
Proof.
  intros Hlive Hfalsy Hwl r. subst r. open_live s row b Hlive.
  subst. alarm_unfold.
  destruct stt; try discriminate; destruct lf as [lf|]; proj_simpl;
    try rewrite Hfalsy; cbn; eauto 10.
Qed.

(** An alarm that ends the job schedules nothing: when the row is done or
    failed afterwards, [setAlarm] was not called and the alarm slot is
    untouched. *)
Theorem no_alarm_once_job_ends (b : Behaviour) (s : DOState) (row row' : JobRow) :
  live s row →
  job_state (step (Alarm b) s) = Some row' →
  is_terminal (status row') = true →
  count_events is_set_alarm (effects (Alarm b) s) = 0%nat
  ∧ scheduled_alarm (step (Alarm b) s) = scheduled_alarm s.
Proof.
  unfold step, effects, perform. intros Hlive.
  open_live s row b Hlive. alarm_unfold.
  destruct stt; try discriminate; alarm_paths;
    cbn [fst snd st events job_state scheduled_alarm];
    intros [= <-]; cbn [status is_terminal]; intros Hterm; try discriminate;
    (split; [count_up is_set_alarm | reflexivity]).
Qed.

(** A job is marked done only after its log was finalized: when the row is
    done after an alarm, the last two effects of that alarm are the call of
    [updateLogStatus] with status done, on the log file in use, and the
    update of the row. *)
Theorem done_only_after_log_finalized (b : Behaviour) (s : DOState)
    (row row' : JobRow) :
  live s row →
  job_state (step (Alarm b) s) = Some row' →
  status row' = Done →
  updateLogStatus b = Returns ()
  ∧ ∃ f messages,
      log_file_in_use b row = Returns f
      ∧ [CallUpdateLogStatus f "done" messages; SqlUpdateStatus Done]
          `suffix_of` effects (Alarm b) s.
Proof.
  unfold step, effects, perform. intros Hlive.
  open_live s row b Hlive. alarm_unfold.
  destruct stt; try discriminate; alarm_paths;
    cbn [fst snd st events job_state];
    intros [= <-]; cbn [status]; intros Hdone; try discriminate;
    (split; [by repeat match goal with u : () |- _ => destruct u end |]);
    eexists _, _; (split; [reflexivity |]);
    rewrite <- ?app_assoc; cbn [app]; suffix_tail.
Qed.

(** ** The workflow handoff *)

Lemma handoff_skipped b req f res r :
  rhiza req = None ∨ outputs res = None →
  handoff b req f res r = (Returns (), r).
Proof.
  unfold handoff. intros [-> | ->]; [reflexivity |].
  by destruct (rhiza req).
Qed.

(** Outside a workflow, or when the callback returns no outputs, the
    handoff is skipped entirely: the alarm makes no call to the flow
    collaborators, whatever they would answer. *)
Theorem no_handoff_outside_workflow (b : Behaviour) (s : DOState) (row : JobRow) :
  live s row →
  rhiza (request row) = None
  ∨ (∀ result, processJob b = Returns result → outputs result = None) →
  count_events is_handoff_call (effects (Alarm b) s) = 0%nat.
Proof.
  unfold effects, perform. intros Hlive Hskip.
  open_live s row b Hlive. alarm_unfold.
  destruct stt; try discriminate;
    repeat (first
              [ rewrite handoff_skipped
                  by (destruct Hskip as [Hskip | Hskip];
                      [by left | right; by apply Hskip])
              | break_match ];
            run_monad; proj_simpl; try discriminate);
    by count_up is_handoff_call.
Qed.

Ltac handoff_unfold := unfold handoff, continuation in *; run_monad; proj_simpl.

Ltac handoff_paths :=
  repeat (break_match; run_monad; proj_simpl;
          cbn [data get_error handoffRecord] in *; try discriminate).

(** When the rhiza entity cannot be fetched (the GET resolves with an error
    or without data), the job of a workflow fails with
    [Failed to fetch rhiza: id]: the interpreter is not called and the log is
    not finalized as done. *)
Theorem rhiza_fetch_failure_fails_job (b : Behaviour) (s : DOState)
    (row : JobRow) (f : string) (result : ProcessResult) (rz : RhizaContext)
    (outs : list Output) (resp : GetResponse) :
  live s row →
  log_file_in_use b row = Returns f →
  processJob b = Returns result →
  truthy_flag (reschedule result) = false →
  rhiza (request row) = Some rz →
  outputs result = Some outs →
  get_entity b = Returns resp →
  get_error resp ≠ None ∨ data resp = None →
  (truthy (log_file_id row) = true → failKlados b = Returns ()) →
  let r := alarm b (start_run s) in
  r.1 = Returns ()
  ∧ (∃ row', job_state (st r.2) = Some row'
       ∧ status row' = Failed
       ∧ error row' = Some ("Failed to fetch rhiza: " +:+ rhiza_id rz))
  ∧ count_events is_interpret (events r.2) = 0%nat
  ∧ count_events is_log_finalize (events r.2) = 0%nat.
Proof.
  intros Hlive Huse Hcb Hflag Hrz Houts Hget Hbad Hfail r. subst r.
  open_live s row b Hlive. subst pj ge. alarm_unfold. handoff_unfold.
  rewrite Hflag, Hrz, Houts.
  destruct resp as [[entity|] [err|]]; cbn [data get_error] in *;
    try (by destruct Hbad);
    (destruct stt; try discriminate;
     (destruct lf as [lf|]; proj_simpl;
      [destruct (String.eqb lf ""); proj_simpl;
       try rewrite Hfail by reflexivity |]);
     subst; cbn; eauto 10).
Qed.

(** In a workflow whose flow has no continuation for the job's step (no
    path, no flow, no such step, or a step without [then]), the rhiza is
    fetched but the interpreter is not called, and the job completes. *)
Theorem step_without_continuation_completes (b : Behaviour) (s : DOState)
    (row : JobRow) (f : string) (result : ProcessResult) (rz : RhizaContext)
    (outs : list Output) (entity : RhizaEntity) :
  live s row →
  log_file_in_use b row = Returns f →
  processJob b = Returns result →
  truthy_flag (reschedule result) = false →
  rhiza (request row) = Some rz →
  outputs result = Some outs →
  get_entity b = Returns {| data := Some entity; get_error := None |} →
  continuation rz entity = None →
  updateLogStatus b = Returns () →
  let r := alarm b (start_run s) in
  r.1 = Returns ()
  ∧ (∃ row', job_state (st r.2) = Some row' ∧ status row' = Done)
  ∧ List.filter is_handoff_call (events r.2) = [CallGetEntity (rhiza_id rz)].
Proof.
  intros Hlive Huse Hcb Hflag Hrz Houts Hget Hcont Hfin r. subst r.
  open_live s row b Hlive. subst pj ge uls. alarm_unfold. handoff_unfold.
  rewrite Hflag, Hrz, Houts. cbn [data get_error]. revert Hcont.
  destruct stt; try discriminate;
    (destruct lf as [lf|]; proj_simpl;
     [destruct (String.eqb lf ""); proj_simpl |]);
    subst; handoff_paths; intros Hcont; try discriminate; cbn; eauto 10.
Qed.

(** In a workflow whose flow continues after the job's step, the
    interpreter is called exactly once, after the rhiza was fetched, with
    the step's directive, the outputs of the callback and the id of the
    job's log file; its handoff record, if any, is then appended to that
    log.  This holds whatever the later collaborators do. *)
Theorem handoff_calls_interpreter_once (b : Behaviour) (s : DOState)
    (row : JobRow) (f : string) (result : ProcessResult) (rz : RhizaContext)
    (outs : list Output) (entity : RhizaEntity) (spec : ThenSpec)
    (handoffResult : HandoffResult) :
  live s row →
  log_file_in_use b row = Returns f →
  processJob b = Returns result →
  truthy_flag (reschedule result) = false →
  rhiza (request row) = Some rz →
  outputs result = Some outs →
  get_entity b = Returns {| data := Some entity; get_error := None |} →
  continuation rz entity = Some spec →
  interpretThen b = Returns handoffResult →
  List.filter is_handoff_call (effects (Alarm b) s)
  = CallGetEntity (rhiza_id rz) :: CallInterpretThen spec outs f
    :: match handoffRecord handoffResult with
       | Some record => [CallUpdateLogWithHandoffs f [record]]
       | None => []
       end.
Proof.
  unfold effects, perform.
  intros Hlive Huse Hcb Hflag Hrz Houts Hget Hcont Hint.
  open_live s row b Hlive. subst pj ge it. alarm_unfold. handoff_unfold.
  rewrite Hflag, Hrz, Houts. cbn [data get_error]. revert Hcont.
  destruct stt; try discriminate;
    (destruct lf as [lf|]; proj_simpl;
     [destruct (String.eqb lf ""); proj_simpl |]);
    cbn [id] in *; try injection Huse as <-; subst;
    handoff_paths; intros Hcont; try discriminate;
    injection Hcont as <-; reflexivity.
Qed.

(** The handoff record reaches the log before the job is done: when the
    interpreter returns a record and the log collaborators answer, the alarm
    ends with the interpreter call, the append of the record to the log,
    the finalization of the log (whose messages include the handoff's), and
    only then the update of the row to done. *)
Theorem handoff_record_precedes_done (b : Behaviour) (s : DOState)
    (row : JobRow) (f : string) (result : ProcessResult) (rz : RhizaContext)
    (outs : list Output) (entity : RhizaEntity) (spec : ThenSpec)
    (handoffResult : HandoffResult) (record : HandoffRecord) :
  live s row →
  log_file_in_use b row = Returns f →
  processJob b = Returns result →
  truthy_flag (reschedule result) = false →
  rhiza (request row) = Some rz →
  outputs result = Some outs →
  get_entity b = Returns {| data := Some entity; get_error := None |} →
  continuation rz entity = Some spec →
  interpretThen b = Returns handoffResult →
  handoffRecord handoffResult = Some record →
  updateLogWithHandoffs b = Returns () →
  updateLogStatus b = Returns () →
  (∃ row', job_state (step (Alarm b) s) = Some row' ∧ status row' = Done)
  ∧ [CallInterpretThen spec outs f;
     CallUpdateLogWithHandoffs f [record];
     CallUpdateLogStatus f "done"
       (processJob_logs b
        ++ [{| level := Info; text := "Handoff: " +:+ action handoffResult |};
            {| level := Success; text := "Job completed" |}]);
     SqlUpdateStatus Done]
      `suffix_of` effects (Alarm b) s.
Proof.
  unfold step, effects, perform.
  intros Hlive Huse Hcb Hflag Hrz Houts Hget Hcont Hint Hrec Hupd Hfin.
  open_live s row b Hlive. subst pj ge it ulh uls. alarm_unfold. handoff_unfold.
  rewrite Hflag, Hrz, Houts, Hrec. cbn [data get_error]. revert Hcont.
  destruct stt; try discriminate;
    (destruct lf as [lf|]; proj_simpl;
     [destruct (String.eqb lf ""); proj_simpl |]);
    cbn [id] in *; try injection Huse as <-; subst;
    handoff_paths; intros Hcont; try discriminate;
    injection Hcont as <-;
    (split; [cbn; eauto |]); cbn [fst snd events app];
    rewrite <- ?app_assoc; cbn [app]; suffix_tail.
Qed.

(** ** The alarm with the template's callback *)

Lemma processJob_never_reschedules api request result r :
  Job.processJob api request Job.start = (Returns result, r) →
  truthy_flag (reschedule result) = false.
Proof.
  run_job. destruct (negb (truthy (target_entity request))); [discriminate |].
  destruct (Job.get_target api) as [[[t|] [err|]]|]; try discriminate.
  cbn [Job.fetchError Job.target].
  destruct (Job.post_output api) as [[[o|] [cerr|]]|]; try discriminate.
  cbn [Job.createError Job.output]. by intros [= <- _].
Qed.

(** An alarm whose callback does not ask to continue ends the job. *)
Lemma alarm_without_continue b s row :
  live s row →
  (∀ result, processJob b = Returns result →
             truthy_flag (reschedule result) = false) →
  (truthy (log_file_id row) = true → failKlados b = Returns ()) →
  (alarm b (start_run s)).1 = Returns ()
  ∧ (∃ row', job_state (st (alarm b (start_run s)).2) = Some row'
             ∧ is_terminal (status row') = true)
  ∧ count_events is_set_alarm (events (alarm b (start_run s)).2) = 0%nat.
Proof.
  intros Hlive Hno Hfail. open_live s row b Hlive. alarm_unfold.
  destruct stt; try discriminate;
    repeat (first [ rewrite (Hno _ eq_refl)
                  | fold_handoff
                  | break_match ];
            run_monad; proj_simpl; try discriminate);
    try (specialize (Hfail ltac:(assumption || reflexivity)));
    try congruence;
    (split; [reflexivity |]); (split; [cbn; eauto |]);
    by count_up is_set_alarm.
Qed.

(** An alarm whose callback throws records the message of what was thrown. *)
Lemma alarm_callback_throws b s row f e :
  live s row →
  log_file_in_use b row = Returns f →
  processJob b = Throws e →
  (truthy (log_file_id row) = true → failKlados b = Returns ()) →
  ∃ row', job_state (st (alarm b (start_run s)).2) = Some row'
          ∧ status row' = Failed ∧ error row' = Some (error_message e).
Proof.
  intros Hlive Huse Hcb Hfail. open_live s row b Hlive.
  subst pj. alarm_unfold.
  destruct stt; try discriminate;
    (destruct lf as [lf|]; proj_simpl;
     [destruct (String.eqb lf ""); proj_simpl;
      try rewrite Hfail by reflexivity |]);
    subst; cbn; eauto.
Qed.

(** With the callback the template ships, a job never waits for a second
    alarm: whatever the API and the collaborators answer (the failure
    finalizer returning when it is called), one alarm leaves the job done or
    failed and schedules nothing. *)
Theorem template_job_ends_in_one_alarm (api : Job.Api) (b : Behaviour)
    (s : DOState) (row : JobRow) :
  live s row →
  (truthy (log_file_id row) = true → failKlados b = Returns ()) →
  let r := alarm (with_template_job api (request row) b) (start_run s) in
  r.1 = Returns ()
  ∧ (∃ row', job_state (st r.2) = Some row' ∧ is_terminal (status row') = true)
  ∧ count_events is_set_alarm (events r.2) = 0%nat.
Proof.
  intros Hlive Hfail r. subst r.
  apply (alarm_without_continue _ s row); [done | | done].
  cbn [with_template_job processJob]. intros result Hres.
  apply (processJob_never_reschedules api (request row) result
           (Job.processJob api (request row) Job.start).2).
  rewrite <- Hres. by destruct (Job.processJob _ _ _).
Qed.

(** A request without a target entity fails the job: with the template's
    callback the alarm records [No target_entity in request] as the error,
    whatever the API would answer. *)
Theorem job_without_target_fails (api : Job.Api) (b : Behaviour)
    (s : DOState) (row : JobRow) (f : string) :
  live s row →
  log_file_in_use b row = Returns f →
  truthy (target_entity (request row)) = false →
  (truthy (log_file_id row) = true → failKlados b = Returns ()) →
  ∃ row', job_state (step (Alarm (with_template_job api (request row) b)) s)
          = Some row'
          ∧ status row' = Failed
          ∧ error row' = Some "No target_entity in request".
Proof.
  intros Hlive Huse Hfalsy Hfail. unfold step, perform.
  apply (alarm_callback_throws _ s row f (JsError "No target_entity in request"));
    try done.
  cbn [with_template_job processJob]. run_job. by rewrite Hfalsy.
Qed.

(** ** The worker ([src/index.ts]) *)

Lemma empty_or_not (x : string) :
  ((x =? "")%string = true ∧ x = "") ∨ ((x =? "")%string = false ∧ x ≠ "").
Proof.
  destruct (String.eqb x "") eqn:E; [left | right]; split; try done.
  - by apply String.eqb_eq.
  - by apply String.eqb_neq.
Qed.

(** The verification endpoint answers 200 or 500; 200 exactly when a
    verification token is set and one of the two agent ids is; the answer then
    carries that token and the verification-specific id when it is set,
    the agent id otherwise, and neither is ever empty. *)
Theorem verification_answer (env : Env) :
  let response := arke_verification env in
  (http_status response = 200 ∨ http_status response = 500)
  ∧ (http_status response = 200
     ↔ truthy (VERIFICATION_TOKEN env) = true
       ∧ (truthy (ARKE_VERIFY_AGENT_ID env) = true ∨ AGENT_ID env ≠ ""))
  ∧ (http_status response = 200 →
     ∃ token kladosId,
       body response
       = JsonBody [("verification_token", JStr token);
                   ("klados_id", JStr kladosId)]
       ∧ VERIFICATION_TOKEN env = Some token ∧ token ≠ "" ∧ kladosId ≠ ""
       ∧ (truthy (ARKE_VERIFY_AGENT_ID env) = true →
          ARKE_VERIFY_AGENT_ID env = Some kladosId)
       ∧ (truthy (ARKE_VERIFY_AGENT_ID env) = false →
          kladosId = AGENT_ID env)).
Proof.
  destruct env as [aid av key token vid].
  unfold arke_verification, verification_klados_id. cbv zeta.
  cbn [VERIFICATION_TOKEN ARKE_VERIFY_AGENT_ID AGENT_ID].
  destruct token as [token|]; cbn [truthy negb orb default from_option id];
    [destruct (empty_or_not token) as [[Et Ht] | [Et Ht]]; rewrite Et;
     cbn [negb orb] |];
    (destruct vid as [vid|]; cbn [truthy negb orb default from_option id];
     [destruct (empty_or_not vid) as [[Ev Hv] | [Ev Hv]]; rewrite ?Ev;
      cbn [negb orb] |]);
    destruct (empty_or_not aid) as [[Ea Ha] | [Ea Ha]]; rewrite ?Ea, ?Ev;
    cbn [negb orb http_status body Response_json];
    (split; [first [by left | by right] |]);
    (split;
       [ split; [ first [ discriminate
                        | intros _; split; [done | first [by left | by right]] ]
                | intros [? [? | ?]]; done ]
       | first [ discriminate
               | intros _; eexists _, _;
                 repeat split; try done; try discriminate ] ]).
Qed.

Lemma object_named_insert name (x : DOState) (ns : gmap string DOState) :
  object_named name (<[name := x]> ns) = x.
Proof. unfold object_named. by rewrite lookup_insert_eq. Qed.

(** A [/process] request for a job id whose object holds no job fails: the
    lookup in the object throws, so the route handler has no acceptance to
    pass on and is left with an exception, and the object is left without a
    row and without an alarm. *)
Theorem process_fails_on_new_job (env : Env) (h : Host) (req : KladosRequest)
    (ns : gmap string DOState) :
  job_state (object_named (job_id req) ns) = None →
  let '(answer, ns', effects) := process env h req ns in
  (∃ e, answer = Throws e)
  ∧ effects = []
  ∧ object_named (job_id req) ns' = object_named (job_id req) ns.
Proof.
  intros Hnone. unfold process, fetch. cbn [String.eqb Ascii.eqb Bool.eqb].
  rewrite (handleStart_empty _ _ _ Hnone). cbn [fst snd st events start_run].
  rewrite object_named_insert. eauto.
Qed.

(** A [/process] request for a job id whose object already holds a job is
    answered with the acceptance of that job id and changes nothing:
    whatever its payload and the worker's bindings, every object is as it
    was and the object does nothing. *)
Theorem process_existing_job_is_idempotent (env : Env) (h : Host)
    (req : KladosRequest) (ns : gmap string DOState) (s : DOState)
    (row : JobRow) :
  ns !! job_id req = Some s →
  job_state s = Some row →
  process env h req ns
  = (Returns (accepted_response (job_id req)), ns, []).
Proof.
  intros Hs Hrow. unfold process, object_named, fetch. rewrite Hs.
  cbn [String.eqb Ascii.eqb Bool.eqb default from_option].
  rewrite (handleStart_existing _ _ _ _ Hrow).
  cbn [fst snd st events start_run body accepted_response Response_json
       body_request].
  by rewrite (insert_id _ _ _ Hs).
Qed.

(** Jobs with different ids do not interfere: the object a [/process]
    request touches is the one named by its job id, every other object is
    left as it is, and two requests for different job ids give the same
    objects in either order. *)
Theorem process_jobs_are_independent (env : Env) (h1 h2 : Host)
    (req1 req2 : KladosRequest) (ns : gmap string DOState) :
  job_id req1 ≠ job_id req2 →
  (∀ name, name ≠ job_id req1 →
     (process env h1 req1 ns).1.2 !! name = ns !! name)
  ∧ (process env h2 req2 (process env h1 req1 ns).1.2).1.2
    = (process env h1 req1 (process env h2 req2 ns).1.2).1.2.
Proof.
  intros Hne. split.
  - intros name Hname. unfold process. cbn [fst snd].
    by rewrite lookup_insert_ne.
  - unfold process. cbn [fst snd]. unfold object_named.
    rewrite !lookup_insert_ne by done. by rewrite insert_insert_ne.
Qed.

(** ** Instances of the further properties *)

Lemma processJob_requires_target_witness :
  Job.processJob sample_api no_target_request Job.start
  = (Throws (JsError "No target_entity in request"),
     {| Job.messages := [{| level := Info; text := "Starting job processing" |}];
        Job.calls := [] |}).
Proof. apply (processJob_requires_target sample_api no_target_request). reflexivity. Defined.

Lemma processJob_fetch_failure_witness :
  (Job.processJob failing_api sample_request Job.start).1
  = Throws (JsError "Failed to fetch target: e1")
  ∧ Job.calls (Job.processJob failing_api sample_request Job.start).2
    = [Job.GET "e1"].
Proof.
  apply (processJob_fetch_failure failing_api sample_request "e1"
           {| Job.target := None;
              Job.fetchError := Some {| api_message := "not found" |} |});
    [reflexivity | discriminate | reflexivity | by left].
Defined.

Lemma processJob_result_witness :
  reschedule {| outputs := Some ["o1"]; reschedule := None |} = None
  ∧ ∃ id t o body,
      target_entity sample_request = Some id
      ∧ Job.get_target sample_api
        = Returns {| Job.target := Some t; Job.fetchError := None |}
      ∧ Job.post_output sample_api
        = Returns {| Job.output := Some o; Job.createError := None |}
      ∧ outputs {| outputs := Some ["o1"]; reschedule := None |}
        = Some [Job.output_id o]
      ∧ Job.calls (Job.processJob sample_api sample_request Job.start).2
        = [Job.GET id; Job.POST body]
      ∧ Job.body_type body = "processed_output"
      ∧ Job.body_collection body = target_collection sample_request
      ∧ Job.body_result body = Job.processEntity (Job.target_id t) t
      ∧ Job.body_source_id body = Job.target_id t
      ∧ Job.relationship_predicate body = "derived_from"
      ∧ Job.relationship_peer body = Job.target_id t
      ∧ Job.relationship_peer_type body = Job.target_type t.
Proof.
  apply (processJob_result sample_api sample_request
           {| outputs := Some ["o1"]; reschedule := None |}
           (Job.processJob sample_api sample_request Job.start).2).
  reflexivity.
Defined.

Lemma processJob_create_failure_witness :
  (Job.processJob
     {| Job.get_target := Job.get_target sample_api;
        Job.post_output :=
          Returns {| Job.output := None; Job.createError := None |};
        Job.processed_at := "2025-01-01T00:00:05.100Z" |}
     sample_request Job.start).1
  = Throws (JsError "Failed to create output entity: undefined").
Proof.
  refine (proj1 (processJob_create_failure _ sample_request "e1" sample_target
                   {| Job.output := None; Job.createError := None |}
                   _ _ _ _ _));
    [reflexivity | discriminate | reflexivity | reflexivity | by right].
Defined.

Lemma template_job_ends_in_one_alarm_witness :
  count_events is_set_alarm
    (events (alarm (with_template_job sample_api sample_request answering)
               (start_run started)).2) = 0%nat.
Proof.
  refine (proj2 (proj2 (template_job_ends_in_one_alarm sample_api answering
                          started started_row _ _)));
    [by split | discriminate].
Defined.

Lemma job_without_target_fails_witness :
  ∃ row', job_state (step (Alarm (with_template_job sample_api no_target_request
                                    answering)) no_target_started)
          = Some row'
          ∧ status row' = Failed
          ∧ error row' = Some "No target_entity in request".
Proof.
  apply (job_without_target_fails sample_api answering no_target_started
           no_target_row "file_1"); [by split | reflexivity | reflexivity |].
  discriminate.
Defined.

Lemma fetch_existing_job_is_read_only_witness :
  (fetch later_host "/anything" other_body (start_run started)).2
  = start_run started.
Proof.
  apply (fetch_existing_job_is_read_only later_host "/anything" other_body
           started started_row). reflexivity.
Defined.

Lemma job_identity_is_immutable_witness :
  ∃ row', job_state (final_state [Alarm continuing; Start later_host other_body;
                                  Alarm callback_throws] started) = Some row'
    ∧ request row' = sample_request ∧ config row' = sample_config
    ∧ log_id row' = "log_01J"
    ∧ created_at row' = "2025-01-01T00:00:00.000Z".
Proof.
  apply (job_identity_is_immutable
           [Alarm continuing; Start later_host other_body; Alarm callback_throws]
           started started_row). reflexivity.
Defined.

Lemma status_never_goes_back_witness :
  ∃ row', job_state (final_state [Alarm continuing; Start later_host other_body]
                       started) = Some row'
    ∧ (rank Accepted ≤ rank (status row'))%nat.
Proof.
  apply (status_never_goes_back [Alarm continuing; Start later_host other_body]
           started started_row). reflexivity.
Defined.

Lemma alarm_by_state_witness :
  alarm answering (start_run fresh) = (Throws no_results, start_run fresh)
  ∧ alarm answering (start_run finished) = (Returns (), start_run finished)
  ∧ ∃ rest, effects (Alarm answering) started = SqlUpdateStatus Processing :: rest.
Proof.
  destruct (alarm_by_state answering fresh) as (Hempty & _).
  destruct (alarm_by_state answering finished) as (_ & Hterm & _).
  destruct (alarm_by_state answering started) as (_ & _ & Hlive & _).
  split; [exact (Hempty eq_refl) |].
  split; [apply Hterm; exists (with_status Done resumed_row); by split |].
  apply (Hlive started_row). by split.
Defined.

Lemma callback_needs_initial_log_witness :
  count_events is_callback
    (events (alarm log_unwritable (start_run started)).2) = 0%nat.
Proof.
  refine (proj1 (proj2 (callback_needs_initial_log log_unwritable started
                          started_row (JsError "log store down") _ _ _)));
    [by split | reflexivity | reflexivity].
Defined.

Lemma no_alarm_once_job_ends_witness :
  count_events is_set_alarm (effects (Alarm answering) resumed) = 0%nat
  ∧ scheduled_alarm (step (Alarm answering) resumed) = scheduled_alarm resumed.
Proof.
  apply (no_alarm_once_job_ends answering resumed resumed_row
           (with_status Done resumed_row));
    [by split | reflexivity | reflexivity].
Defined.

Lemma done_only_after_log_finalized_witness :
  updateLogStatus answering = Returns ()
  ∧ ∃ f messages,
      log_file_in_use answering resumed_row = Returns f
      ∧ [CallUpdateLogStatus f "done" messages; SqlUpdateStatus Done]
          `suffix_of` effects (Alarm answering) resumed.
Proof.
  apply (done_only_after_log_finalized answering resumed resumed_row
           (with_status Done resumed_row));
    [by split | reflexivity | reflexivity].
Defined.

Lemma no_handoff_outside_workflow_witness :
  count_events is_handoff_call (effects (Alarm answering) started) = 0%nat.
Proof.
  apply (no_handoff_outside_workflow answering started started_row);
    [by split | by left].
Defined.

Lemma rhiza_fetch_failure_fails_job_witness :
  ∃ row', job_state (st (alarm rhiza_unreachable (start_run workflow_started)).2)
          = Some row'
          ∧ status row' = Failed
          ∧ error row' = Some "Failed to fetch rhiza: rhiza_1".
Proof.
  refine (proj1 (proj2 (rhiza_fetch_failure_fails_job rhiza_unreachable
                          workflow_started workflow_row "file_2"
                          {| outputs := Some ["o1"; "o2"]; reschedule := None |}
                          workflow_rhiza ["o1"; "o2"]
                          {| data := None;
                             get_error := Some {| api_message := "not found" |} |}
                          _ _ _ _ _ _ _ _ _)));
    try reflexivity; first [by split | by left].
Defined.

Lemma step_without_continuation_completes_witness :
  List.filter is_handoff_call
    (events (alarm flow_ends_here (start_run workflow_started)).2)
  = [CallGetEntity "rhiza_1"].
Proof.
  refine (proj2 (proj2 (step_without_continuation_completes flow_ends_here
                          workflow_started workflow_row "file_2"
                          {| outputs := Some ["o1"; "o2"]; reschedule := None |}
                          workflow_rhiza ["o1"; "o2"] {| flow := None |}
                          _ _ _ _ _ _ _ _ _)));
    try reflexivity. by split.
Defined.

Lemma handoff_calls_interpreter_once_witness :
  List.filter is_handoff_call (effects (Alarm handing_off) workflow_started)
  = [CallGetEntity "rhiza_1";
     CallInterpretThen {| directive := "pass stepB" |} ["o1"; "o2"] "file_2";
     CallUpdateLogWithHandoffs "file_2" [{| record_text := "to stepB" |}]].
Proof.
  refine (handoff_calls_interpreter_once handing_off workflow_started
            workflow_row "file_2"
            {| outputs := Some ["o1"; "o2"]; reschedule := None |}
            workflow_rhiza ["o1"; "o2"] _ {| directive := "pass stepB" |}
            {| handoffRecord := Some {| record_text := "to stepB" |};
               action := "pass"; target := Some "stepB";
               targetType := Some "klados" |}
            _ _ _ _ _ _ _ _ _);
    first [by split | reflexivity | vm_compute; reflexivity].
Defined.

Lemma handoff_record_precedes_done_witness :
  ∃ row', job_state (step (Alarm handing_off) workflow_started) = Some row'
          ∧ status row' = Done.
Proof.
  refine (proj1 (handoff_record_precedes_done handing_off workflow_started
                   workflow_row "file_2"
                   {| outputs := Some ["o1"; "o2"]; reschedule := None |}
                   workflow_rhiza ["o1"; "o2"] _ {| directive := "pass stepB" |}
                   {| handoffRecord := Some {| record_text := "to stepB" |};
                      action := "pass"; target := Some "stepB";
                      targetType := Some "klados" |}
                   {| record_text := "to stepB" |}
                   _ _ _ _ _ _ _ _ _ _ _ _));
    first [by split | reflexivity | vm_compute; reflexivity].
Defined.

Lemma verification_answer_witness :
  http_status (arke_verification sample_env) = 200.
Proof.
  exact (proj2 (proj1 (proj2 (verification_answer sample_env)))
           (conj eq_refl (or_introl eq_refl))).
Defined.

Lemma process_fails_on_new_job_witness :
  (∃ e, (process sample_env sample_host sample_request ∅).1.1 = Throws e)
  ∧ (process sample_env sample_host sample_request ∅).2 = [].
Proof.
  pose proof (process_fails_on_new_job sample_env sample_host sample_request ∅
                eq_refl) as H.
  destruct (process sample_env sample_host sample_request ∅) as [[answer ns'] evs].
  destruct H as (Hanswer & Hevs & _). split; [exact Hanswer | exact Hevs].
Defined.

Lemma process_existing_job_is_idempotent_witness :
  process sample_env later_host other_request {[ "job_1" := started ]}
  = (Returns (accepted_response "job_1"), {[ "job_1" := started ]}, []).
Proof.
  apply (process_existing_job_is_idempotent sample_env later_host other_request
           {[ "job_1" := started ]} started started_row);
    [apply lookup_singleton_eq | reflexivity].
Defined.

Lemma process_jobs_are_independent_witness :
  (process sample_env later_host workflow_request
     (process sample_env sample_host sample_request ∅).1.2).1.2
  = (process sample_env sample_host sample_request
       (process sample_env later_host workflow_request ∅).1.2).1.2.
Proof.
  refine (proj2 (process_jobs_are_independent sample_env sample_host later_host
                   sample_request workflow_request ∅ _)).
  discriminate.
Defined.
